(** * laav: Common.hpp and NV12_PlanarFrame.hpp

    A shallow embedding of the two headers of the laav audio/video pipeline
    library, together with the part of the capture example that drives the
    pipe.  C++ values are modelled as follows:

    - [std::string] is a list of characters ([list ascii]);
    - [unsigned int] is a [Z] reduced modulo [2^32], [uint16_t] a [Z] reduced
      modulo [2^16];
    - [std::size_t] indices are [nat] ([std::string::npos] is [None]);
    - a function that may throw and may print to [std::cerr] is a computation
      in the monad [M], which threads the contents of the error stream and
      returns either a value or the thrown exception. *)

From Stdlib Require Import Strings.Ascii Strings.String.
From Stdlib Require Import Bool Arith ZArith Lia List Eqdep_dec.
Import ListNotations.

Local Open Scope list_scope.

(* ================================================================= *)
(** ** C++ run-time model: strings, exceptions, the error stream *)

Module Cxx.

Definition std_string := list ascii.

(** A string literal of the source. *)
Definition lit (s : String.string) : std_string := list_ascii_of_string s.

(** [unsigned int] (32 bits) and [uint16_t]: conversion from any integer
    value wraps around. *)
Definition UINT_BITS : Z := 32.
Definition to_unsigned_int (z : Z) : Z := (z mod 2 ^ UINT_BITS)%Z.
Definition to_uint16_t (z : Z) : Z := (z mod 2 ^ 16)%Z.
Definition UINT_MAX : Z := (2 ^ UINT_BITS - 1)%Z.

(** Arithmetic and comparison on two [unsigned int] operands; an [int]
    operand mixed with an [unsigned int] one is first converted to
    [unsigned int] (usual arithmetic conversions). *)
Definition uint_add (a b : Z) : Z := to_unsigned_int (a + b)%Z.
Definition uint_eq_int (u : Z) (i : Z) : bool := (u =? to_unsigned_int i)%Z.
Definition uint_lt_int (u : Z) (i : Z) : bool := (u <? to_unsigned_int i)%Z.

(** The character written by ["\n"]. *)
Definition newline : std_string := ["010"%char].

End Cxx.
Import Cxx.

(* ================================================================= *)
(** ** Common.hpp *)

(** [enum MediaStatus {MEDIA_READY, MEDIA_NOT_READY, MEDIA_BUFFERING,
    MEDIA_NO_DATA}] *)
Inductive MediaStatus : Set :=
| MEDIA_READY
| MEDIA_NOT_READY
| MEDIA_BUFFERING
| MEDIA_NO_DATA.

(** [class MediaException], with its single private field. *)
Record MediaException : Set := Build_MediaException { mCause : MediaStatus }.

(** [enum DeviceStatus] *)
Inductive DeviceStatus : Set :=
| OPEN_DEV_ERROR
| CONFIGURE_DEV_ERROR
| CLOSE_DEV_ERROR
| DEV_INITIALIZING
| DEV_CONFIGURED
| DEV_CAN_GRAB
| DEV_DISCONNECTED.

(** Everything the code of these files throws: [std::runtime_error] (with
    its [what()] string), [MediaException], the empty class [OutOfBounds],
    and [std::out_of_range], which [std::string::substr] throws. *)
Inductive exn : Type :=
| Ex_runtime_error (what : std_string)
| Ex_MediaException (e : MediaException)
| Ex_OutOfBounds
| Ex_out_of_range.

Inductive outcome (A : Type) : Type :=
| Returns (a : A)
| Throws (e : exn).
Arguments Returns {A} a.
Arguments Throws {A} e.

(** Computations that print to [std::cerr] and may throw. *)
Definition ostream := std_string.
Definition M (A : Type) : Type := ostream -> outcome A * ostream.

Definition ret {A} (a : A) : M A := fun cerr => (Returns a, cerr).
Definition throw {A} (e : exn) : M A := fun cerr => (Throws e, cerr).
Definition bind {A B} (m : M A) (k : A -> M B) : M B :=
  fun cerr =>
    match m cerr with
    | (Returns a, cerr') => k a cerr'
    | (Throws e, cerr') => (Throws e, cerr')
    end.
Definition cerr_put (s : std_string) : M unit :=
  fun cerr => (Returns tt, cerr ++ s).

Declare Scope cxx_scope.
Delimit Scope cxx_scope with cxx.
Notation "m ;; k" := (bind m (fun _ => k))
  (at level 61, right associativity) : cxx_scope.
Notation "x <- m ;; k" := (bind m (fun x => k))
  (at level 61, m at next level, right associativity) : cxx_scope.

(** [try { body } catch (const MediaException& me) { handler }]: only a
    [MediaException] is caught, any other exception leaves the block. *)
Definition try_catch_MediaException {A} (body : M A)
           (handler : MediaException -> M A) : M A :=
  fun cerr =>
    match body cerr with
    | (Throws (Ex_MediaException me), cerr') => handler me cerr'
    | r => r
    end.

Module Common.

Local Open Scope cxx_scope.

(** [void printAndThrowUnrecoverableError_(const std::string& error,
    const std::runtime_error& func)] *)
Definition printAndThrowUnrecoverableError_
           (error : std_string) (func : std_string) : M unit :=
  cerr_put error ;;
  cerr_put newline ;;
  throw (Ex_runtime_error func).

(** [#define printAndThrowUnrecoverableError(x)
    printAndThrowUnrecoverableError_(x, std::runtime_error{__PRETTY_FUNCTION__})];
    the compiler's name of the enclosing function is the first argument
    here. *)
Definition printAndThrowUnrecoverableError
           (PRETTY_FUNCTION : std_string) (x : std_string) : M unit :=
  printAndThrowUnrecoverableError_ x PRETTY_FUNCTION.

Definition encodedVideoFrameBufferSize : Z := to_unsigned_int 100.
Definition encodedAudioFrameBufferSize : Z := to_unsigned_int 100.

Definition DEFAULT_BITRATE : Z := to_unsigned_int (-1).
Definition DEFAULT_GOPSIZE : Z := to_unsigned_int (-1).

(** The enumerators and their integer values, in declaration order. *)
Definition MediaStatus_enumerators : list MediaStatus :=
  [MEDIA_READY; MEDIA_NOT_READY; MEDIA_BUFFERING; MEDIA_NO_DATA].

Definition MediaStatus_value (s : MediaStatus) : Z :=
  match s with
  | MEDIA_READY => 0
  | MEDIA_NOT_READY => 1
  | MEDIA_BUFFERING => 2
  | MEDIA_NO_DATA => 3
  end%Z.

Definition DeviceStatus_enumerators : list DeviceStatus :=
  [OPEN_DEV_ERROR; CONFIGURE_DEV_ERROR; CLOSE_DEV_ERROR; DEV_INITIALIZING;
   DEV_CONFIGURED; DEV_CAN_GRAB; DEV_DISCONNECTED].

Definition DeviceStatus_value (s : DeviceStatus) : Z :=
  match s with
  | OPEN_DEV_ERROR => 0
  | CONFIGURE_DEV_ERROR => 1
  | CLOSE_DEV_ERROR => 2
  | DEV_INITIALIZING => 3
  | DEV_CONFIGURED => 4
  | DEV_CAN_GRAB => 5
  | DEV_DISCONNECTED => 6
  end%Z.

(** The status a stage shows is a value of one of the two enumerations. *)
Inductive StatusCode : Set :=
| DataStatus (s : MediaStatus)
| LifecycleStatus (s : DeviceStatus).

(** [MediaException::MediaException(enum MediaStatus cause)] *)
Definition MediaException_ctor (cause : MediaStatus) : MediaException :=
  {| mCause := cause |}.

(** [enum MediaStatus cause() const]: the result and the object after the
    call. *)
Definition cause (this : MediaException) : MediaStatus * MediaException :=
  (mCause this, this).

(** *** [split] *)

(** [text.find(sep, pos)]: the first index at or after [pos] that holds
    [sep]; [None] is [std::string::npos]. *)
Fixpoint find_from (l : std_string) (sep : ascii) (i : nat) : option nat :=
  match l with
  | [] => None
  | c :: l' => if Ascii.eqb c sep then Some i else find_from l' sep (S i)
  end.

Definition find (text : std_string) (sep : ascii) (pos : nat) : option nat :=
  find_from (skipn pos text) sep pos.

(** [text.substr(pos, n)] and [text.substr(pos)] ([n = None]): throws
    [std::out_of_range] when [pos > text.size()]. *)
Definition substr (text : std_string) (pos : nat) (n : option nat)
  : outcome std_string :=
  if length text <? pos then Throws Ex_out_of_range
  else Returns (match n with
                | Some k => firstn k (skipn pos text)
                | None => skipn pos text
                end).

(** The [while] loop of [split] and the statements after it; [fuel] bounds
    the number of loop tests, [None] means the bound was reached. *)
Fixpoint split_loop (fuel : nat) (text : std_string) (sep : ascii)
         (start : nat) (tokens : list std_string)
  : option (outcome (list std_string)) :=
  match fuel with
  | O => None
  | S fuel' =>
      match find text sep start with
      | Some end_ =>
          match substr text start (Some (end_ - start)) with
          | Returns tok =>
              split_loop fuel' text sep (end_ + 1) (tokens ++ [tok])
          | Throws e => Some (Throws e)
          end
      | None =>
          match substr text start None with
          | Returns tok => Some (Returns (tokens ++ [tok]))
          | Throws e => Some (Throws e)
          end
      end
  end.

(** [std::vector<std::string> split(const std::string &text, char sep)] *)
Definition split (text : std_string) (sep : ascii)
  : option (outcome (list std_string)) :=
  split_loop (S (length text)) text sep 0 [].

(** Joining tokens with [sep] between consecutive ones. *)
Fixpoint join (sep : ascii) (tokens : list std_string) : std_string :=
  match tokens with
  | [] => []
  | [t] => t
  | t :: ts => t ++ sep :: join sep ts
  end.

Definition occurrences (sep : ascii) (text : std_string) : nat :=
  count_occ ascii_dec text sep.

End Common.
Import Common.

(* ================================================================= *)
(** ** NV12_PlanarFrame.hpp *)

(** [Pixel<unsigned char, unsigned char, unsigned char>] *)
Record Pixel : Set := { component0 : Z; component1 : Z; component2 : Z }.

(** What a specialization of [VideoFrame<Format, width_, height_>] gives:
    [pixelAt] and [setPixelAt], with coordinates of type [uint16_t].
    [setPixelAt] returns the frame as the call leaves it. *)
Class FrameFormat (Frame : Z -> Z -> Type) : Type := {
  pixelAt : forall {width_ height_ : Z},
      Frame width_ height_ -> Z -> Z -> M Pixel;
  setPixelAt : forall {width_ height_ : Z},
      Frame width_ height_ -> Pixel -> Z -> Z -> M (Frame width_ height_)
}.

Module NV12_PlanarFrame.

Local Open Scope cxx_scope.

Section Specialization.

(** The base class [Planar3RawVideoFrame] and its constructor are
    declared in another header. *)
Variable Planar3RawVideoFrame : Type.
Variable Planar3RawVideoFrame_ctor : Z -> Z -> Planar3RawVideoFrame.

(** [__PRETTY_FUNCTION__] inside [pixelAt] and inside [setPixelAt]. *)
Variable PRETTY_FUNCTION_pixelAt : std_string.
Variable PRETTY_FUNCTION_setPixelAt : std_string.

(** [class VideoFrame<NV_12_PLANAR, width_, height_>]; [mCurrPixel] is
    the member of [FormattedRawVideoFrame] that [pixelAt] names. *)
Record VideoFrame (width_ height_ : Z) : Type := {
  planar3 : Planar3RawVideoFrame;
  mCurrPixel : Pixel
}.
Arguments planar3 {width_ height_} _.
Arguments mCurrPixel {width_ height_} _.

Definition VideoFrame_ctor (width_ height_ : Z) (initial : Pixel)
  : VideoFrame width_ height_ :=
  {| planar3 := Planar3RawVideoFrame_ctor width_ height_;
     mCurrPixel := initial |}.

Definition NOT_IMPLEMENTED : std_string := lit "NOT IMPLEMENTED YET! TODO!".

Definition NV12_pixelAt {width_ height_ : Z}
           (this : VideoFrame width_ height_) (x y : Z) : M Pixel :=
  printAndThrowUnrecoverableError PRETTY_FUNCTION_pixelAt NOT_IMPLEMENTED ;;
  ret (mCurrPixel this).

Definition NV12_setPixelAt {width_ height_ : Z}
           (this : VideoFrame width_ height_) (pixel : Pixel) (x y : Z)
  : M (VideoFrame width_ height_) :=
  printAndThrowUnrecoverableError PRETTY_FUNCTION_setPixelAt NOT_IMPLEMENTED ;;
  ret this.

#[local] Instance NV_12_PLANAR_format : FrameFormat VideoFrame := {
  pixelAt := @NV12_pixelAt;
  setPixelAt := @NV12_setPixelAt
}.

End Specialization.

Arguments planar3 {Planar3RawVideoFrame width_ height_} _.
Arguments mCurrPixel {Planar3RawVideoFrame width_ height_} _.

End NV12_PlanarFrame.

(** The contract on the border of the frame, for a format [F] and a frame of
    geometry [width_] x [height_]: the calls one past the last column or the
    last row raise [OutOfBounds], the calls on the last pixel return.  The
    arguments are converted to [uint16_t] at the call. *)
Section BorderContract.

Context {Frame : Z -> Z -> Type} {F : FrameFormat Frame}.

Definition raises {A} (e : exn) (m : M A) : Prop :=
  forall cerr, fst (m cerr) = Throws e.

Definition succeeds {A} (m : M A) : Prop :=
  forall cerr, exists a, fst (m cerr) = Returns a.

Definition border_contract {width_ height_ : Z}
           (f : Frame width_ height_) (p : Pixel) : Prop :=
  raises Ex_OutOfBounds (pixelAt f (to_uint16_t width_) (to_uint16_t 0)) /\
  raises Ex_OutOfBounds (pixelAt f (to_uint16_t 0) (to_uint16_t height_)) /\
  raises Ex_OutOfBounds (setPixelAt f p (to_uint16_t width_) (to_uint16_t 0)) /\
  raises Ex_OutOfBounds (setPixelAt f p (to_uint16_t 0) (to_uint16_t height_)) /\
  succeeds (pixelAt f (to_uint16_t (width_ - 1)) (to_uint16_t (height_ - 1))) /\
  succeeds (setPixelAt f p (to_uint16_t (width_ - 1)) (to_uint16_t (height_ - 1))).

End BorderContract.

(** A 640 x 480 frame of the specialization, for the examples. *)
Definition frame_640_480 : NV12_PlanarFrame.VideoFrame unit 640 480 :=
  NV12_PlanarFrame.VideoFrame_ctor unit (fun _ _ => tt) 640 480
                  {| component0 := 0; component1 := 0; component2 := 0 |}.

Definition green : Pixel :=
  {| component0 := 149; component1 := 43; component2 := 21 |}.

(* ================================================================= *)
(** ** The pipe: frame types, holders, the operator [>>] and the loop of
       the capture example *)

Module Pipe.

Local Open Scope cxx_scope.

(** The classes used as format tags: [NV_12_PLANAR] of
    NV12_PlanarFrame.hpp and the ones the example instantiates. *)
Inductive Format : Set :=
| NV_12_PLANAR
| YUYV422_PACKED
| YUV420_PLANAR
| H264.

(** The template arguments [<Format, width, height>] of a frame, a holder
    or a stage. *)
Record FrameType : Set := { format : Format; width : Z; height : Z }.

Definition Format_eq_dec (a b : Format) : {a = b} + {a <> b}.
Proof. decide equality. Defined.

Definition FrameType_eq_dec (a b : FrameType) : {a = b} + {a <> b}.
Proof. decide equality; [apply Z.eq_dec | apply Z.eq_dec | apply Format_eq_dec]. Defined.

(** A frame of a given type and its bytes. *)
Record Frame (t : FrameType) : Type := { payload : list Z }.
Arguments payload {t} _.

Definition empty_frame (t : FrameType) : Frame t := {| payload := [] |}.

(** *** Frame holder *)

(** Modelled from the spec: the class [VideoFrameHolder] is not in these
    files.  "Owns exactly one current frame slot plus a status code";
    the state [NO_DATA] is initial. *)
Record FrameHolder (t : FrameType) : Type := {
  slot : Frame t;
  status : MediaStatus
}.
Arguments slot {t} _.
Arguments status {t} _.

(** Modelled from the spec: a holder as built, "NO_DATA (initial; nothing
    ever produced)". *)
Definition new_holder (t : FrameType) : FrameHolder t :=
  {| slot := empty_frame t; status := MEDIA_NO_DATA |}.

(** Modelled from the spec: [push(frame)] "stores the frame, sets status
    READY; always succeeds". *)
Definition push {t} (f : Frame t) (h : FrameHolder t) : FrameHolder t :=
  {| slot := f; status := MEDIA_READY |}.

(** Modelled from the spec: [get()] "returns the current frame if status
    is READY; otherwise raises a Status Signal carrying the current status
    code"; the holder is left as it is. *)
Definition get {t} (h : FrameHolder t) : outcome (Frame t) :=
  match status h with
  | MEDIA_READY => Returns (slot h)
  | s => Throws (Ex_MediaException (MediaException_ctor s))
  end.

(** Modelled from the spec: the operator records the producer's status on
    the edge ("propagate the same status to the consumer's edge state"). *)
Definition set_status {t} (s : MediaStatus) (h : FrameHolder t)
  : FrameHolder t :=
  {| slot := slot h; status := s |}.

(** *** Typed pipe operator *)

(** Modelled from the spec: run-time behaviour of [producer >> holder],
    given what [producer.get()] did: "on success, forward the frame to
    consumer.push; on a Status Signal from the producer, propagate the same
    status to the consumer's edge state and take no further action". Any
    other exception leaves the operator. *)
Definition pipe {t} (produced : outcome (Frame t)) (h : FrameHolder t)
  : outcome (FrameHolder t) :=
  match produced with
  | Returns f => Returns (push f h)
  | Throws (Ex_MediaException me) => Returns (set_status (fst (cause me)) h)
  | Throws e => Throws e
  end.

(** What can happen to a holder: the three operations of the holder, and
    the operator [>>] passing on the signal of its producer (what [pipe]
    does when the producer throws a [MediaException] with that status);
    and what a run of them shows to the caller. *)
Inductive HolderOp (t : FrameType) : Type :=
| OpPush (f : Frame t)
| OpGet
| OpStatus
| OpSignal (s : MediaStatus).
Arguments OpPush {t} f.
Arguments OpGet {t}.
Arguments OpStatus {t}.
Arguments OpSignal {t} s.

Inductive Observation (t : FrameType) : Type :=
| Pushed
| Got (r : outcome (Frame t))
| Status (s : MediaStatus)
| Signalled.
Arguments Pushed {t}.
Arguments Got {t} r.
Arguments Status {t} s.
Arguments Signalled {t}.

Definition is_push {t} (op : HolderOp t) : bool :=
  match op with OpPush _ => true | _ => false end.

Definition is_signal {t} (op : HolderOp t) : bool :=
  match op with OpSignal _ => true | _ => false end.

Definition apply_op {t} (h : FrameHolder t) (op : HolderOp t)
  : FrameHolder t * Observation t :=
  match op with
  | OpPush f => (push f h, Pushed)
  | OpGet => (h, Got (get h))
  | OpStatus => (h, Status (status h))
  | OpSignal s =>
      match pipe (Throws (Ex_MediaException (MediaException_ctor s))) h with
      | Returns h' => (h', Signalled)
      | Throws _ => (h, Signalled)
      end
  end.

Fixpoint run_ops {t} (h : FrameHolder t) (ops : list (HolderOp t))
  : FrameHolder t * list (Observation t) :=
  match ops with
  | [] => (h, [])
  | op :: ops' =>
      let (h1, o) := apply_op h op in
      let (h2, os) := run_ops h1 ops' in
      (h2, o :: os)
  end.

(** The status signal that carries [MEDIA_NO_DATA]. *)
Definition NO_DATA_signal {A} : outcome A :=
  Throws (Ex_MediaException (MediaException_ctor MEDIA_NO_DATA)).

(** What a caller may see of a holder that holds nothing. *)
Definition shows_no_data {t} (o : Observation t) : Prop :=
  match o with
  | Pushed => False
  | Got r => r = NO_DATA_signal
  | Status s => s = MEDIA_NO_DATA
  | Signalled => True
  end.

Definition no_push {t} (ops : list (HolderOp t)) : bool :=
  forallb (fun op => negb (is_push op)) ops.

Definition no_signal {t} (ops : list (HolderOp t)) : bool :=
  forallb (fun op => negb (is_signal op)) ops.

(** No signal passed on carries [MEDIA_READY]: a signal is raised when the
    data is not ready. *)
Definition signals_not_ready {t} (ops : list (HolderOp t)) : bool :=
  forallb (fun op => match op with
                     | OpSignal MEDIA_READY => false
                     | _ => true
                     end) ops.

(** The last sentence of the claim on never-pushed holders, as it is
    written: whatever happens to a new holder short of a push, every get()
    reports NO_DATA. *)
Definition never_pushed_reports_NO_DATA (t : FrameType) : Prop :=
  forall ops : list (HolderOp t),
    no_push ops = true ->
    Forall shows_no_data (snd (run_ops (new_holder t) ops)).

(** What the caller is to see when every get() raises the signal that
    carries the status last passed on, [s] before any. *)
Fixpoint reported {t} (s : MediaStatus) (ops : list (HolderOp t))
  : list (Observation t) :=
  match ops with
  | [] => []
  | OpPush _ :: ops' => Pushed :: reported MEDIA_READY ops'
  | OpGet :: ops' =>
      Got (Throws (Ex_MediaException (MediaException_ctor s)))
      :: reported s ops'
  | OpStatus :: ops' => Status s :: reported s ops'
  | OpSignal s' :: ops' => Signalled :: reported s' ops'
  end.

(** The frame with the given bytes. *)
Definition frame_of (t : FrameType) (bytes : list Z) : Frame t :=
  {| payload := bytes |}.

(** Modelled from the spec: [connect(producer, consumer)] "is only
    well-formed when producer's output type and consumer's input type are
    the identical (format, width, height) triple; this is a build-time
    check".  The build of a connection sees the two types only: it yields
    the operator to run, or [None] when the program is rejected. *)
Definition connect (produces consumes : FrameType)
  : option (outcome (Frame produces) -> FrameHolder consumes
            -> outcome (FrameHolder consumes)) :=
  match FrameType_eq_dec produces consumes with
  | left e =>
      Some (fun produced h =>
              pipe (eq_rect produces (fun t => outcome (Frame t))
                            produced consumes e) h)
  | right _ => None
  end.

Definition accepted (produces consumes : FrameType) : bool :=
  match connect produces consumes with Some _ => true | None => false end.

(** Modelled from the spec: the stage classes are not in these files.  The
    stages of the capture example by their template arguments, as [main]
    instantiates and connects them: what each consumes and what it
    produces. *)
Record StageType : Set := {
  consumes_ : option FrameType;
  produces_ : option FrameType
}.

Definition V4L2Grabber (t : FrameType) : StageType :=
  {| consumes_ := None; produces_ := Some t |}.
Definition VideoFrameHolder (t : FrameType) : StageType :=
  {| consumes_ := Some t; produces_ := Some t |}.
Definition FFMPEGVideoConverter (t1 t2 : FrameType) : StageType :=
  {| consumes_ := Some t1; produces_ := Some t2 |}.
Definition FFMPEGH264Encoder (t : FrameType) : StageType :=
  {| consumes_ := Some t;
     produces_ := Some {| format := H264; width := width t;
                          height := height t |} |}.
Definition FFMPEGVideoMuxer (t : FrameType) : StageType :=
  {| consumes_ := Some t; produces_ := None |}.
Definition HTTPVideoStreamer (t : FrameType) : StageType :=
  {| consumes_ := Some t; produces_ := None |}.

Definition stage_connect_ok (p c : StageType) : bool :=
  match produces_ p, consumes_ c with
  | Some a, Some b => accepted a b
  | _, _ => false
  end.

Definition WIDTH : Z := 640.
Definition HEIGHT : Z := 480.

Definition ty (f : Format) (w h : Z) : FrameType :=
  {| format := f; width := w; height := h |}.

(** The uses of [>>] in [main], in source order. *)
Definition main_connections : list (StageType * StageType) :=
  let vGrab := V4L2Grabber (ty YUYV422_PACKED WIDTH HEIGHT) in
  let vFh1 := VideoFrameHolder (ty YUYV422_PACKED WIDTH HEIGHT) in
  let vConv := FFMPEGVideoConverter (ty YUYV422_PACKED WIDTH HEIGHT)
                                    (ty YUV420_PLANAR WIDTH HEIGHT) in
  let vEnc := FFMPEGH264Encoder (ty YUV420_PLANAR WIDTH HEIGHT) in
  let vFh2 := VideoFrameHolder (ty H264 WIDTH HEIGHT) in
  let vMux := FFMPEGVideoMuxer (ty H264 WIDTH HEIGHT) in
  let vStream := HTTPVideoStreamer (ty H264 WIDTH HEIGHT) in
  [(vGrab, vFh1); (vFh1, vConv); (vConv, vEnc); (vEnc, vFh2);
   (vFh2, vMux); (vFh2, vStream)].

End Pipe.

(** *** Ring of frames *)

Module Ring.

Import Pipe.

(** Modelled from the spec: the buffered holder is not in these files.
    "A small ring of up to N slots, N configurable, default 100"; a push
    into a full ring "drops the oldest unread frame, counted as an
    overflow".  [ring] lists the unread frames, oldest first. *)
Record RingHolder (t : FrameType) : Type := {
  capacity : nat;
  ring : list (Frame t);
  overflows : nat
}.
Arguments capacity {t} _.
Arguments ring {t} _.
Arguments overflows {t} _.

(** Modelled from the spec: the constructor of the buffered holder.  The
    capacity is the argument when there is one, and the global
    [encodedVideoFrameBufferSize] of Common.hpp otherwise. *)
Definition new_ring (t : FrameType) (N : option Z) : RingHolder t :=
  {| capacity := Z.to_nat (match N with
                           | Some n => to_unsigned_int n
                           | None => encodedVideoFrameBufferSize
                           end);
     ring := [];
     overflows := 0 |}.

(** Modelled from the spec: a push stores the frame behind the unread ones;
    when the ring is full it first "drops the oldest unread frame, counted
    as an overflow". *)
Definition ring_push {t} (f : Frame t) (r : RingHolder t) : RingHolder t :=
  if length (ring r) <? capacity r
  then {| capacity := capacity r;
          ring := ring r ++ [f];
          overflows := overflows r |}
  else {| capacity := capacity r;
          ring := tl (ring r) ++ [f];
          overflows := S (overflows r) |}.

(** Pushes in the order of the list, with no read in between. *)
Definition push_all {t} (fs : list (Frame t)) (r : RingHolder t)
  : RingHolder t :=
  fold_left (fun r f => ring_push f r) fs r.

(** The frame whose payload is the number [n]. *)
Definition numbered (t : FrameType) (n : nat) : Frame t :=
  {| payload := [Z.of_nat n] |}.

End Ring.

(** *** Capture device and driving loop *)

Module Capture.

Import Pipe.
Local Open Scope cxx_scope.

(** Modelled from the spec: what happened to the device since the previous
    iteration (what [catchNextEvent] waited for), one event for each
    transition of the device lifecycle. *)
Inductive DeviceEvent (t : FrameType) : Type :=
| OpenFailed
| ConfigureAccepted
| ConfigureFailed
| StreamingStarted
| CloseFailed
| FrameArrived (f : Frame t)
| Idle
| SourceLost.
Arguments OpenFailed {t}.
Arguments ConfigureAccepted {t}.
Arguments ConfigureFailed {t}.
Arguments StreamingStarted {t}.
Arguments CloseFailed {t}.
Arguments FrameArrived {t} f.
Arguments Idle {t}.
Arguments SourceLost {t}.

(** Modelled from the spec: the grabber is not in these files.
    "INITIALIZING before first successful configure, CONFIGURED once
    parameters are accepted, CAN_PRODUCE once frames may be pulled,
    DISCONNECTED on loss of the underlying source, and the three error
    codes for the corresponding failed operation".  Nothing leaves
    [DEV_DISCONNECTED]. *)
Definition device_step {t} (s : DeviceStatus) (ev : DeviceEvent t)
  : DeviceStatus :=
  match s, ev with
  | DEV_DISCONNECTED, _ => DEV_DISCONNECTED
  | DEV_CAN_GRAB, SourceLost => DEV_DISCONNECTED
  | DEV_INITIALIZING, OpenFailed => OPEN_DEV_ERROR
  | DEV_INITIALIZING, ConfigureFailed => CONFIGURE_DEV_ERROR
  | DEV_INITIALIZING, ConfigureAccepted => DEV_CONFIGURED
  | DEV_CONFIGURED, StreamingStarted => DEV_CAN_GRAB
  | _, CloseFailed => CLOSE_DEV_ERROR
  | _, _ => s
  end.

(** Modelled from the spec: what pulling from the grabber gives.  A frame
    when the device can produce and one has arrived; the signal
    [MEDIA_NOT_READY] when it can produce and none has; the signal
    [MEDIA_NO_DATA] in every other state of the device. *)
Definition grab {t} (s : DeviceStatus) (ev : DeviceEvent t)
  : outcome (Frame t) :=
  match s, ev with
  | DEV_CAN_GRAB, FrameArrived f => Returns f
  | DEV_CAN_GRAB, _ =>
      Throws (Ex_MediaException (MediaException_ctor MEDIA_NOT_READY))
  | _, _ => Throws (Ex_MediaException (MediaException_ctor MEDIA_NO_DATA))
  end.

Definition lift {A} (r : outcome A) : M A := fun cerr => (r, cerr).

Section Loop.

(** Types of the two holders of the example. *)
Variables tIn tOut : FrameType.

(** The stages whose code is elsewhere: the drawing of the rectangle
    with [setPixelAt], the converter followed by the encoder, the muxer
    and the streamer.  The drawing works on the frame of the holder, through
    a reference: besides its outcome and the error stream it gives the frame
    as it leaves it, whether it ends or throws. *)
Variable draw : Frame tIn -> ostream -> (outcome unit * ostream) * Frame tIn.
Variable convert_encode : Frame tIn -> M (Frame tOut).
Variable mux : Frame tOut -> M unit.
Variable stream : Frame tOut -> M unit.

Record LoopState : Type := {
  dev : DeviceStatus;
  vFh1 : FrameHolder tIn;
  vFh2 : FrameHolder tOut
}.

(** Modelled from the spec: [holder >> stage >> holder'], "feed it as
    input and attempt to pull an output"; a signal from the first holder
    goes to the second one and the stage is not run. *)
Definition through {a b} (stage : Frame a -> M (Frame b))
           (from : FrameHolder a) (to : FrameHolder b)
  : M (FrameHolder b) :=
  fun cerr =>
    match get from with
    | Returns f =>
        let (produced, cerr') := stage f cerr in
        (pipe produced to, cerr')
    | Throws e => (pipe (Throws e) to, cerr)
    end.

(** Modelled from the spec: [holder >> consumer] for a terminal consumer;
    on a signal it takes "no further action this iteration". *)
Definition into {a} (consumer : Frame a -> M unit) (from : FrameHolder a)
  : M unit :=
  match get from with
  | Returns f => consumer f
  | Throws (Ex_MediaException _) => ret tt
  | Throws e => throw e
  end.

(** One iteration of [while (1)] of [main], after the commands: the
    new state and what [vFh1.get()] did inside the [try] block. *)
Definition iteration (ev : DeviceEvent tIn) (s : LoopState)
  : M (LoopState * outcome (Frame tIn)) :=
  let d := device_step (dev s) ev in
  (* vGrab >> vFh1; *)
  h1 <- lift (pipe (grab d ev) (vFh1 s)) ;;
  (* try { grabbedFrame = vFh1.get(); ...setPixelAt... }
     catch (const MediaException& me) {} *)
  let got := get h1 in
  h1' <- (fun cerr =>
            match got with
            | Returns grabbedFrame =>
                let (r, drawn) := draw grabbedFrame cerr in
                let h := {| slot := drawn; status := status h1 |} in
                try_catch_MediaException
                  ((fun _ => r) ;; ret h) (fun _ => ret h) cerr
            | Throws e =>
                try_catch_MediaException (throw e) (fun _ => ret h1) cerr
            end) ;;
  (* vFh1 >> vConv >> vEnc >> vFh2; *)
  h2 <- through convert_encode h1' (vFh2 s) ;;
  (* vFh2 >> vMux; vFh2 >> vStream; *)
  into mux h2 ;;
  into stream h2 ;;
  ret ({| dev := d; vFh1 := h1'; vFh2 := h2 |}, got).

(** The loop over the events of a run; the list gathers what each
    [vFh1.get()] did.  An exception that leaves an iteration ends the
    loop. *)
Fixpoint drive (evs : list (DeviceEvent tIn)) (s : LoopState)
  : M (LoopState * list (outcome (Frame tIn))) :=
  match evs with
  | [] => ret (s, [])
  | ev :: evs' =>
      r <- iteration ev s ;;
      rest <- drive evs' (fst r) ;;
      ret (fst rest, snd r :: snd rest)
  end.

Definition initial : LoopState :=
  {| dev := DEV_INITIALIZING;
     vFh1 := new_holder tIn;
     vFh2 := new_holder tOut |}.

End Loop.

(** The example's types and stand-ins for the stages left out, and a
    state reached after the device was configured, started and gave one
    frame. *)
Definition example_tIn : FrameType := ty YUYV422_PACKED WIDTH HEIGHT.
Definition example_tOut : FrameType := ty H264 WIDTH HEIGHT.

Definition example_draw (f : Frame example_tIn) (cerr : ostream)
  : (outcome unit * ostream) * Frame example_tIn :=
  ((Returns tt, cerr), f).
Definition example_convert_encode (f : Frame example_tIn)
  : M (Frame example_tOut) :=
  ret (frame_of example_tOut (payload f)).
Definition example_sink (f : Frame example_tOut) : M unit := ret tt.

Definition example_drive :=
  drive example_tIn example_tOut example_draw example_convert_encode
        example_sink example_sink.

Definition example_state : LoopState example_tIn example_tOut :=
  {| dev := DEV_CAN_GRAB;
     vFh1 := push (frame_of example_tIn [16; 128]%Z) (new_holder example_tIn);
     vFh2 := push (frame_of example_tOut [16; 128]%Z)
                  (new_holder example_tOut) |}.

Definition example_events : list (DeviceEvent example_tIn) :=
  [Idle; FrameArrived (frame_of example_tIn [17; 128]%Z); Idle].

End Capture.

(* ================================================================= *)
(** ** Common.hpp: [ignoreSigpipe] *)

Module Sigpipe.

Section Posix.

(** The state of the process as the two library calls see it, and the
    calls themselves: [sigemptyset(&sa.sa_mask)] and
    [sigaction(SIGPIPE, &sa, 0)] with [sa.sa_handler = SIG_IGN], each giving
    its return value and the state it leaves. *)
Variable OSState : Type.
Variable sigemptyset : OSState -> Z * OSState.
Variable sigaction_SIGPIPE_SIG_IGN : OSState -> Z * OSState.

(** [__PRETTY_FUNCTION__] inside [ignoreSigpipe]. *)
Variable PRETTY_FUNCTION_ignoreSigpipe : std_string.

Definition could_not_handle_SIGPIPE : std_string :=
  lit "sigemptyset(&sa.sa_mask) < 0 || sigaction(SIGPIPE, &sa, 0) (could not handle SIGPIPE)".

(** [void ignoreSigpipe()]: what the call does to the error stream and to
    the state of the process.  The right operand of [||] is evaluated only
    when the left one is false. *)
Definition ignoreSigpipe (os : OSState) (cerr : ostream)
  : (outcome unit * ostream) * OSState :=
  let (rc1, os1) := sigemptyset os in
  if (rc1 <? 0)%Z
  then (printAndThrowUnrecoverableError PRETTY_FUNCTION_ignoreSigpipe
                                        could_not_handle_SIGPIPE cerr, os1)
  else
    let (rc2, os2) := sigaction_SIGPIPE_SIG_IGN os1 in
    if (rc2 <? 0)%Z
    then (printAndThrowUnrecoverableError PRETTY_FUNCTION_ignoreSigpipe
                                          could_not_handle_SIGPIPE cerr, os2)
    else ((Returns tt, cerr), os2).

End Posix.

End Sigpipe.

(* ================================================================= *)
(** ** The capture example: commands and the green rectangle *)

Module Main.

Local Open Scope cxx_scope.

(** [std::map<std::string, std::string>]: the bindings, one for each key. *)
Definition commands : Type := list (std_string * std_string).

Definition string_eq_dec : forall a b : std_string, {a = b} + {a <> b} :=
  list_eq_dec ascii_dec.

(** [cmds.find(key)]: the value bound to [key]; [None] is [cmds.end()]. *)
Fixpoint map_find (cmds : commands) (key : std_string) : option std_string :=
  match cmds with
  | [] => None
  | (k, v) :: rest =>
      if string_eq_dec k key then Some v else map_find rest key
  end.

Definition has_key (cmds : commands) (key : std_string) : bool :=
  match map_find cmds key with Some _ => true | None => false end.

(** What the loop asks of the muxer and of the receiver of commands. *)
Inductive Action : Type :=
| StartMuxing (filename : std_string)
| StopMuxing
| ClearCommands.

Inductive Control : Set := Break | Continue.

Definition stop : std_string := lit "stop".
Definition startRecording : std_string := lit "startRecording".
Definition stopRecording : std_string := lit "stopRecording".

(** "Decode and execute HTTP commands": the first statement of the loop
    body.  [cmds["startRecording"]] is read where [find] has found the
    key. *)
Definition handle_commands (cmds : commands) : Control * list Action :=
  if negb (length cmds =? 0)
  then
    match map_find cmds stop with
    | Some _ => (Break, [])
    | None =>
        match map_find cmds startRecording with
        | Some filename => (Continue, [StartMuxing filename; ClearCommands])
        | None =>
            match map_find cmds stopRecording with
            | Some _ => (Continue, [StopMuxing; ClearCommands])
            | None => (Continue, [ClearCommands])
            end
        end
    end
  else (Continue, []).

Definition is_muxer_action (a : Action) : bool :=
  match a with ClearCommands => false | _ => true end.

(** The values [lo, lo+1, ..., hi-1] that the variable of
    [for (i = lo; i < hi; i++)] takes. *)
Definition interval (lo hi : Z) : list Z :=
  map (fun k => (lo + Z.of_nat k)%Z) (seq 0 (Z.to_nat (hi - lo))).

(** The coordinates [(x, y)] of the calls of [setPixelAt] in the [try]
    block, in the order of the calls, for [WIDTH = W] and [HEIGHT = H]:
    the first loop draws on rows [H/4] and [H - H/4], the second one on
    columns [W/4] and [W - W/4]. *)
Definition rectangle_calls (W H : Z) : list (Z * Z) :=
  (flat_map (fun i => [(i, H ÷ 4); (i, H - H ÷ 4)])
            (interval (W ÷ 4) (W - W ÷ 4))
   ++
   flat_map (fun i => [(W ÷ 4, i); (W - W ÷ 4, i)])
            (interval (H ÷ 4) (H - H ÷ 4)))%Z.


(** The calls one after the other on the same frame; the arguments are
    converted to [uint16_t]. *)
Fixpoint set_pixels {Frame : Z -> Z -> Type} {F : FrameFormat Frame}
         {W H : Z} (pix : Pixel) (calls : list (Z * Z)) (frame : Frame W H)
  : M (Frame W H) :=
  match calls with
  | [] => ret frame
  | (x, y) :: rest =>
      frame' <- setPixelAt frame pix (to_uint16_t x) (to_uint16_t y) ;;
      set_pixels pix rest frame'
  end.

(** The statements inside [try { ... }], for any format and any [get] of
    the holder. *)
Definition draw_body {Frame : Z -> Z -> Type} {F : FrameFormat Frame}
           {W H : Z} (get : M (Frame W H)) (pix : Pixel)
  : M (option (Frame W H)) :=
  grabbedFrame <- get ;;
  drawn <- set_pixels pix (rectangle_calls W H) grabbedFrame ;;
  ret (Some drawn).

(** The [try] block with its [catch] clause: the frame with the rectangle
    when the block ran to its end, [None] when a [MediaException] was
    caught. *)
Definition try_draw {Frame : Z -> Z -> Type} {F : FrameFormat Frame}
           {W H : Z} (get : M (Frame W H)) (pix : Pixel)
  : M (option (Frame W H)) :=
  try_catch_MediaException (draw_body get pix) (fun _ => ret None).

Definition is_MediaException (e : exn) : bool :=
  match e with Ex_MediaException _ => true | _ => false end.

End Main.

(* ================================================================= *)
(** * Properties *)

(** ** [split] *)

Section SplitFacts.

Variable sep : ascii.

Lemma find_from_Some (l : std_string) (i e : nat) :
  find_from l sep i = Some e ->
  exists pre post,
    l = pre ++ sep :: post /\ ~ In sep pre /\ e = i + length pre.
Proof.
  revert i; induction l as [|c l IH]; intros i H; simpl in H.
  - discriminate.
  - destruct (Ascii.eqb c sep) eqn:E.
    + apply Ascii.eqb_eq in E; subst c.
      injection H as <-.
      exists [], l; simpl; repeat split; auto; lia.
    + apply Ascii.eqb_neq in E.
      destruct (IH _ H) as (pre & post & -> & Hpre & ->).
      exists (c :: pre), post; simpl; repeat split; try lia.
      intros [Hc | Hin]; [congruence | auto].
Qed.

Lemma find_from_None (l : std_string) (i : nat) :
  find_from l sep i = None -> ~ In sep l.
Proof.
  revert i; induction l as [|c l IH]; intros i H; simpl in *.
  - tauto.
  - destruct (Ascii.eqb c sep) eqn:E; [discriminate|].
    apply Ascii.eqb_neq in E.
    intros [Hc | Hin]; [congruence | exact (IH _ H Hin)].
Qed.

Lemma join_cons (t : std_string) (ts : list std_string) :
  ts <> [] -> join sep (t :: ts) = t ++ sep :: join sep ts.
Proof. destruct ts; [congruence | reflexivity]. Qed.

Lemma occurrences_app (a b : std_string) :
  occurrences sep (a ++ b) = occurrences sep a + occurrences sep b.
Proof. apply count_occ_app. Qed.

Lemma occurrences_absent (a : std_string) :
  ~ In sep a -> occurrences sep a = 0.
Proof. intro H; apply count_occ_not_In; exact H. Qed.

Lemma occurrences_sep_cons (a : std_string) :
  occurrences sep (sep :: a) = S (occurrences sep a).
Proof. unfold occurrences; apply count_occ_cons_eq; reflexivity. Qed.

(** The loop, started at [start] with [tokens] gathered so far, ends with
    the tokens of the rest of the text appended, whenever the fuel exceeds
    the number of characters left. *)
Lemma split_loop_from (fuel : nat) (text : std_string) :
  forall (start : nat) (tokens : list std_string),
    start <= length text ->
    length text - start < fuel ->
    exists toks,
      split_loop fuel text sep start tokens = Some (Returns (tokens ++ toks))
      /\ join sep toks = skipn start text
      /\ Forall (fun t => ~ In sep t) toks
      /\ length toks = S (occurrences sep (skipn start text)).
Proof.
  induction fuel as [|fuel IH]; intros start tokens Hle Hfuel; [lia|].
  simpl. unfold find, substr.
  assert (Hlt : (length text <? start) = false) by (apply Nat.ltb_ge; lia).
  rewrite Hlt.
  destruct (find_from (skipn start text) sep start) as [e|] eqn:Hf.
  - destruct (find_from_Some _ _ _ Hf) as (pre & post & Hsplit & Hpre & ->).
    assert (Hlen : length text - start = length pre + S (length post)).
    { rewrite <- length_skipn, Hsplit, length_app; reflexivity. }
    replace (start + length pre - start) with (length pre) by lia.
    assert (Hpost : skipn (start + length pre + 1) text = post).
    { replace (start + length pre + 1) with (S (length pre) + start) by lia.
      rewrite <- skipn_skipn, Hsplit.
      replace (S (length pre)) with (length (pre ++ [sep]))
        by (rewrite length_app; simpl; lia).
      replace (pre ++ sep :: post) with ((pre ++ [sep]) ++ post)
        by (rewrite <- app_assoc; reflexivity).
      rewrite skipn_app, skipn_all, Nat.sub_diag. reflexivity. }
    rewrite Hsplit, firstn_app, firstn_all, Nat.sub_diag. simpl firstn.
    rewrite app_nil_r.
    destruct (IH (start + length pre + 1) (tokens ++ [pre]))
      as (toks & Hrun & Hjoin & Hall & Hcount); [lia | lia |].
    exists (pre :: toks).
    split; [rewrite <- app_assoc in Hrun; exact Hrun|].
    split.
    { rewrite join_cons by (destruct toks; [discriminate | congruence]).
      rewrite Hjoin, Hpost. reflexivity. }
    split; [constructor; assumption|].
    simpl length. rewrite Hcount, Hpost, occurrences_app,
      occurrences_sep_cons, (occurrences_absent pre Hpre). reflexivity.
  - apply find_from_None in Hf.
    exists [skipn start text]. repeat split.
    + constructor; [exact Hf | constructor].
    + simpl. rewrite (occurrences_absent _ Hf). reflexivity.
Qed.

End SplitFacts.

Example split_csv :
  split (lit "a,b,,c") ","%char
  = Some (Returns [lit "a"; lit "b"; lit ""; lit "c"]).
Proof. reflexivity. Qed.

Example split_empty : split [] ","%char = Some (Returns [[]]).
Proof. reflexivity. Qed.

Example split_trailing :
  split (lit "k=v&") "&"%char = Some (Returns [lit "k=v"; lit ""]).
Proof. reflexivity. Qed.

(** C9. For every text and separator, [split] returns (it neither throws nor
    exhausts the loop bound) a list of exactly one more token than there are
    separators in the text; no token contains the separator; joining the
    tokens with the separator gives back the text; a text without separator
    yields the list made of the text alone. *)
Theorem split_tokens (text : std_string) (sep : ascii) :
  exists tokens,
    split text sep = Some (Returns tokens)
    /\ tokens <> []
    /\ length tokens = occurrences sep text + 1
    /\ Forall (fun t => ~ In sep t) tokens
    /\ join sep tokens = text
    /\ (~ In sep text -> tokens = [text]).
Proof.
  destruct (split_loop_from sep (S (length text)) text 0 [])
    as (toks & Hrun & Hjoin & Hall & Hcount); [lia | lia |].
  simpl skipn in *. simpl app in Hrun.
  exists toks. split; [exact Hrun|].
  split; [destruct toks; [discriminate | congruence]|].
  split; [lia|].
  split; [exact Hall|].
  split; [exact Hjoin|].
  intro Habsent.
  rewrite (occurrences_absent sep text Habsent) in Hcount.
  destruct toks as [|t [|t' ts]]; try discriminate.
  simpl in Hjoin. congruence.
Qed.

(** ** The NV_12_PLANAR frame *)

Import NV12_PlanarFrame.

Lemma printAndThrowUnrecoverableError_run
      (func error : std_string) (cerr : ostream) :
  printAndThrowUnrecoverableError func error cerr
  = (Throws (Ex_runtime_error func), (cerr ++ error) ++ newline).
Proof. reflexivity. Qed.

Lemma NV12_pixelAt_run (P : Type) (pp : std_string) (w h : Z)
      (f : VideoFrame P w h) (x y : Z) (cerr : ostream) :
  NV12_pixelAt P pp f x y cerr
  = (Throws (Ex_runtime_error pp), (cerr ++ NOT_IMPLEMENTED) ++ newline).
Proof. reflexivity. Qed.

Lemma NV12_setPixelAt_run (P : Type) (ps : std_string) (w h : Z)
      (f : VideoFrame P w h) (p : Pixel) (x y : Z) (cerr : ostream) :
  NV12_setPixelAt P ps f p x y cerr
  = (Throws (Ex_runtime_error ps), (cerr ++ NOT_IMPLEMENTED) ++ newline).
Proof. reflexivity. Qed.


(** C1, as stated, fails on the specialization: on a 640 x 480 NV_12_PLANAR
    frame the border contract does not hold (the call at (639, 479) does not
    return, the call at (640, 0) raises something else than OutOfBounds). *)
Lemma NV12_border_contract_fails :
  ~ @border_contract (VideoFrame unit)
      (NV_12_PLANAR_format unit (lit "pixelAt") (lit "setPixelAt"))
      640 480 frame_640_480 green.
Proof.
  intros (Hx & _).
  specialize (Hx []). vm_compute in Hx. discriminate Hx.
Qed.

(** C1, amended. On a frame of the NV_12_PLANAR specialization, of any
    geometry, the calls of pixelAt and setPixelAt at (width, 0), (0, height)
    and (width-1, height-1) all raise the unrecoverable error
    (std::runtime_error): none raises OutOfBounds, none returns, and the
    border contract fails for every such frame. *)
Theorem NV12_border_calls_unrecoverable
        (P : Type) (pp ps : std_string) (w h : Z)
        (f : VideoFrame P w h) (p : Pixel) :
  raises (Ex_runtime_error pp)
         (NV12_pixelAt P pp f (to_uint16_t w) (to_uint16_t 0)) /\
  raises (Ex_runtime_error pp)
         (NV12_pixelAt P pp f (to_uint16_t 0) (to_uint16_t h)) /\
  raises (Ex_runtime_error pp)
         (NV12_pixelAt P pp f (to_uint16_t (w - 1)) (to_uint16_t (h - 1))) /\
  raises (Ex_runtime_error ps)
         (NV12_setPixelAt P ps f p (to_uint16_t w) (to_uint16_t 0)) /\
  raises (Ex_runtime_error ps)
         (NV12_setPixelAt P ps f p (to_uint16_t 0) (to_uint16_t h)) /\
  raises (Ex_runtime_error ps)
         (NV12_setPixelAt P ps f p (to_uint16_t (w - 1)) (to_uint16_t (h - 1))) /\
  ~ raises Ex_OutOfBounds
      (NV12_pixelAt P pp f (to_uint16_t w) (to_uint16_t 0)) /\
  ~ raises Ex_OutOfBounds
      (NV12_pixelAt P pp f (to_uint16_t 0) (to_uint16_t h)) /\
  ~ raises Ex_OutOfBounds
      (NV12_setPixelAt P ps f p (to_uint16_t w) (to_uint16_t 0)) /\
  ~ raises Ex_OutOfBounds
      (NV12_setPixelAt P ps f p (to_uint16_t 0) (to_uint16_t h)) /\
  ~ succeeds (NV12_pixelAt P pp f (to_uint16_t (w - 1)) (to_uint16_t (h - 1))) /\
  ~ succeeds (NV12_setPixelAt P ps f p (to_uint16_t (w - 1)) (to_uint16_t (h - 1))) /\
  ~ @border_contract _ (NV_12_PLANAR_format P pp ps) w h f p.
Proof.
  unfold raises, succeeds, border_contract. simpl.
  repeat split; try (intro cerr; reflexivity).
  - intro H. specialize (H []). discriminate H.
  - intro H. specialize (H []). discriminate H.
  - intro H. specialize (H []). discriminate H.
  - intro H. specialize (H []). discriminate H.
  - intro H. destruct (H []) as [a Ha]. discriminate Ha.
  - intro H. destruct (H []) as [a Ha]. discriminate Ha.
  - intros (H & _). specialize (H []). discriminate H.
Qed.

(** C2. On the NV_12_PLANAR specialization every call of pixelAt and of
    setPixelAt, whatever the coordinates, appends the diagnostic line to the
    error stream and throws a std::runtime_error; what is thrown is no
    MediaException (it carries no status code), and neither call returns. *)
Theorem NV12_access_not_implemented
        (P : Type) (pp ps : std_string) (w h : Z)
        (f : VideoFrame P w h) (p : Pixel) (x y : Z) (cerr : ostream) :
  NV12_pixelAt P pp f x y cerr
  = (Throws (Ex_runtime_error pp), cerr ++ NOT_IMPLEMENTED ++ newline) /\
  NV12_setPixelAt P ps f p x y cerr
  = (Throws (Ex_runtime_error ps), cerr ++ NOT_IMPLEMENTED ++ newline) /\
  (forall s : MediaStatus,
      fst (NV12_pixelAt P pp f x y cerr)
      <> Throws (Ex_MediaException (MediaException_ctor s)) /\
      fst (NV12_setPixelAt P ps f p x y cerr)
      <> Throws (Ex_MediaException (MediaException_ctor s))) /\
  (forall me : MediaException,
      Ex_runtime_error pp <> Ex_MediaException me /\
      Ex_runtime_error ps <> Ex_MediaException me) /\
  (forall v : Pixel, fst (NV12_pixelAt P pp f x y cerr) <> Returns v) /\
  (forall v, fst (NV12_setPixelAt P ps f p x y cerr) <> Returns v).
Proof.
  rewrite NV12_pixelAt_run, NV12_setPixelAt_run, <- app_assoc. simpl fst.
  repeat split; intros; discriminate.
Qed.

(** ** Status vocabulary and status signal *)

(** C7. The data-availability codes are exactly NO_DATA, BUFFERING, READY
    and NOT_READY, the device-lifecycle codes exactly the three error codes,
    INITIALIZING, CONFIGURED, CAN_PRODUCE (DEV_CAN_GRAB) and DISCONNECTED;
    the enumerators are pairwise distinct, and a status shown by a stage is
    one of these values. *)
Theorem status_vocabulary :
  (forall s : MediaStatus,
      In s [MEDIA_NO_DATA; MEDIA_BUFFERING; MEDIA_READY; MEDIA_NOT_READY]) /\
  NoDup [MEDIA_NO_DATA; MEDIA_BUFFERING; MEDIA_READY; MEDIA_NOT_READY] /\
  (forall s : MediaStatus, In s MediaStatus_enumerators) /\
  NoDup (map MediaStatus_value MediaStatus_enumerators) /\
  (forall d : DeviceStatus,
      In d [OPEN_DEV_ERROR; CONFIGURE_DEV_ERROR; CLOSE_DEV_ERROR;
            DEV_INITIALIZING; DEV_CONFIGURED; DEV_CAN_GRAB;
            DEV_DISCONNECTED]) /\
  DeviceStatus_enumerators
  = [OPEN_DEV_ERROR; CONFIGURE_DEV_ERROR; CLOSE_DEV_ERROR;
     DEV_INITIALIZING; DEV_CONFIGURED; DEV_CAN_GRAB; DEV_DISCONNECTED] /\
  NoDup DeviceStatus_enumerators /\
  NoDup (map DeviceStatus_value DeviceStatus_enumerators) /\
  (forall c : StatusCode,
      (exists s, c = DataStatus s /\ In s MediaStatus_enumerators) \/
      (exists d, c = LifecycleStatus d /\ In d DeviceStatus_enumerators)).
Proof.
  assert (Hm : forall s : MediaStatus, In s MediaStatus_enumerators)
    by (intros []; simpl; tauto).
  assert (Hd : forall d : DeviceStatus, In d DeviceStatus_enumerators)
    by (intros []; simpl; tauto).
  repeat split.
  - intros []; simpl; tauto.
  - repeat constructor; simpl; intuition discriminate.
  - exact Hm.
  - repeat constructor; simpl; intuition discriminate.
  - exact Hd.
  - repeat constructor; simpl; intuition discriminate.
  - repeat constructor; simpl; intuition discriminate.
  - intros [s | d]; [left; exists s | right; exists d]; auto.
Qed.

(** C8. A MediaException built with cause [s] reports [s] from [cause()],
    and the call leaves the object as it was; the object is determined by
    that one status code. *)
Theorem MediaException_cause_roundtrip (s : MediaStatus) :
  fst (cause (MediaException_ctor s)) = s /\
  (forall e : MediaException, snd (cause e) = e) /\
  (forall e : MediaException, e = MediaException_ctor (fst (cause e))).
Proof.
  split; [reflexivity|]. split; intros e; [reflexivity|].
  destruct e; reflexivity.
Qed.

(** ** The globals of Common.hpp *)

(** C10. DEFAULT_BITRATE and DEFAULT_GOPSIZE hold 2^32 - 1 = 4294967295,
    the largest unsigned int: they are not negative, differ from the integer
    -1, compare equal to -1 only after -1 itself is converted to unsigned
    int, and adding one wraps to zero. *)
Theorem DEFAULT_BITRATE_GOPSIZE_wrap :
  (DEFAULT_BITRATE = 2 ^ 32 - 1 /\ DEFAULT_BITRATE = 4294967295 /\
   DEFAULT_GOPSIZE = 2 ^ 32 - 1 /\ DEFAULT_GOPSIZE = 4294967295 /\
   DEFAULT_BITRATE = UINT_MAX /\ DEFAULT_GOPSIZE = UINT_MAX /\
   DEFAULT_BITRATE <> -1 /\ DEFAULT_GOPSIZE <> -1 /\
   (DEFAULT_BITRATE <? 0) = false /\ (DEFAULT_GOPSIZE <? 0) = false /\
   uint_eq_int DEFAULT_BITRATE (-1) = true /\
   uint_eq_int DEFAULT_GOPSIZE (-1) = true /\
   uint_lt_int DEFAULT_BITRATE 0 = false /\
   uint_add DEFAULT_BITRATE 1 = 0 /\ uint_add DEFAULT_GOPSIZE 1 = 0)%Z.
Proof. vm_compute. repeat split; intro; discriminate. Qed.

(** ** Frame holder *)

Import Pipe.


Lemma get_cases {t} (h : FrameHolder t) :
  (status h = MEDIA_READY /\ get h = Returns (slot h)) \/
  (status h <> MEDIA_READY /\
   get h = Throws (Ex_MediaException (MediaException_ctor (status h)))).
Proof.
  unfold get; destruct (status h); [left | right ..]; split;
    (reflexivity || discriminate).
Qed.

Lemma pipe_signal {t} (s : MediaStatus) (h : FrameHolder t) :
  pipe (Throws (Ex_MediaException (MediaException_ctor s))) h
  = Returns (set_status s h).
Proof. reflexivity. Qed.

(** Without a push and without a READY signal, a holder whose status is
    not READY shows, at every get(), the signal with the status it then
    has. *)
Lemma run_ops_reported {t} (ops : list (HolderOp t)) :
  forall h : FrameHolder t,
    no_push ops = true ->
    signals_not_ready ops = true ->
    status h <> MEDIA_READY ->
    snd (run_ops h ops) = reported (status h) ops.
Proof.
  induction ops as [|op ops IH]; intros h Hnp Hsig Hst; [reflexivity|].
  simpl in Hnp, Hsig.
  apply andb_prop in Hnp as [Hop Hnp].
  apply andb_prop in Hsig as [Hs Hsig].
  destruct op as [f | | | s]; simpl in Hop; try discriminate.
  - simpl. specialize (IH h Hnp Hsig Hst).
    destruct (run_ops h ops) as [h2 os]. simpl in *. rewrite IH.
    destruct (get_cases h) as [[Hr _] | [_ Hg]]; [contradiction|].
    rewrite Hg. reflexivity.
  - simpl. specialize (IH h Hnp Hsig Hst).
    destruct (run_ops h ops) as [h2 os]. simpl in *. rewrite IH.
    reflexivity.
  - simpl. assert (Hs' : s <> MEDIA_READY) by (destruct s; discriminate).
    specialize (IH (set_status s h) Hnp Hsig Hs').
    destruct (run_ops (set_status s h) ops) as [h2 os]. simpl in *.
    rewrite IH. reflexivity.
Qed.

Lemma reported_no_frame {t} (ops : list (HolderOp t)) :
  forall (s : MediaStatus) (f : Frame t),
    no_push ops = true -> ~ In (Got (Returns f)) (reported s ops).
Proof.
  induction ops as [|op ops IH]; intros s f Hnp; simpl; [tauto|].
  simpl in Hnp. apply andb_prop in Hnp as [Hop Hnp].
  destruct op as [g | | | s']; simpl in Hop; try discriminate; simpl;
    intros [E | Hin]; try discriminate E; exact (IH _ _ Hnp Hin).
Qed.

Lemma reported_no_data {t} (ops : list (HolderOp t)) :
  no_push ops = true -> no_signal ops = true ->
  Forall shows_no_data (reported MEDIA_NO_DATA ops).
Proof.
  induction ops as [|op ops IH]; intros Hnp Hns; simpl; [constructor|].
  simpl in Hnp, Hns.
  apply andb_prop in Hnp as [Hop Hnp]. apply andb_prop in Hns as [Hs Hns].
  destruct op as [g | | | s']; simpl in Hop, Hs; try discriminate;
    constructor; try exact (IH Hnp Hns); reflexivity.
Qed.

(** C4, as stated, fails on the last sentence: a new holder to which the
    operator passes on the signal NOT_READY of its producer, and on which
    push was never called, raises NOT_READY at get(), not NO_DATA. *)
Lemma never_pushed_holder_reports_NOT_READY :
  no_push [@OpSignal (ty YUYV422_PACKED 640 480) MEDIA_NOT_READY; OpGet]
  = true /\
  snd (run_ops (new_holder (ty YUYV422_PACKED 640 480))
               [OpSignal MEDIA_NOT_READY; OpGet])
  = [Signalled;
     Got (Throws (Ex_MediaException (MediaException_ctor MEDIA_NOT_READY)))] /\
  ~ never_pushed_reports_NO_DATA (ty YUYV422_PACKED 640 480).
Proof.
  split; [reflexivity|]. split; [reflexivity|].
  intro Hclaim.
  specialize (Hclaim [OpSignal MEDIA_NOT_READY; OpGet] eq_refl).
  inversion Hclaim as [|? ? _ Hrest]; subst.
  inversion Hrest as [|? ? Hget _]; subst.
  simpl in Hget. discriminate Hget.
Qed.

(** C4, amended. In every state of a holder, get() returns a frame exactly
    when the status is READY, and then the frame of the slot; otherwise it
    raises the status signal that carries the status of the holder; it
    always does one or the other and leaves the holder as it is.  On a new
    holder, as long as push is not called and no READY signal is passed on
    to it, every get() raises the signal with the status the operator last
    passed on, NO_DATA before any, and never returns a frame; when the
    operator passes nothing on, every get() reports NO_DATA. *)
Theorem holder_get_contract {t : FrameType}
        (h : FrameHolder t) (ops : list (HolderOp t)) :
  no_push ops = true ->
  signals_not_ready ops = true ->
  ((exists f, get h = Returns f) <-> status h = MEDIA_READY) /\
  (status h = MEDIA_READY -> get h = Returns (slot h)) /\
  (status h <> MEDIA_READY ->
   get h = Throws (Ex_MediaException (MediaException_ctor (status h)))) /\
  (get h = Returns (slot h) \/
   get h = Throws (Ex_MediaException (MediaException_ctor (status h)))) /\
  fst (apply_op h OpGet) = h /\
  snd (run_ops (new_holder t) ops) = reported MEDIA_NO_DATA ops /\
  (forall f, ~ In (Got (Returns f)) (snd (run_ops (new_holder t) ops))) /\
  (no_signal ops = true ->
   Forall shows_no_data (snd (run_ops (new_holder t) ops))).
Proof.
  intros Hnp Hsig.
  assert (Hrun : snd (run_ops (new_holder t) ops) = reported MEDIA_NO_DATA ops).
  { apply (run_ops_reported ops (new_holder t) Hnp Hsig). discriminate. }
  assert (Hnf : forall f, ~ In (Got (Returns f))
                            (snd (run_ops (new_holder t) ops))).
  { intro f. rewrite Hrun. apply reported_no_frame. exact Hnp. }
  assert (Hnd : no_signal ops = true ->
                Forall shows_no_data (snd (run_ops (new_holder t) ops))).
  { intro Hns. rewrite Hrun. apply reported_no_data; assumption. }
  destruct (get_cases h) as [[Hs Hg] | [Hs Hg]]; rewrite Hg.
  - repeat split; auto; try tauto.
    exists (slot h); reflexivity.
  - repeat split; auto; try tauto.
    intros [f Hf]; discriminate Hf.
Qed.

Lemma holder_get_contract_witness :
  let t := ty YUYV422_PACKED 640 480 in
  let h := push (frame_of t [1; 2; 3]%Z) (new_holder t) in
  let ops := [OpGet; OpSignal MEDIA_BUFFERING; OpStatus; OpGet] in
  no_push ops = true /\
  signals_not_ready ops = true /\
  get h = Returns (frame_of t [1; 2; 3]%Z) /\
  snd (run_ops (new_holder t) ops)
  = [Got NO_DATA_signal; Signalled; Status MEDIA_BUFFERING;
     Got (Throws (Ex_MediaException (MediaException_ctor MEDIA_BUFFERING)))].
Proof.
  intros t h ops.
  assert (Hnp : no_push ops = true) by reflexivity.
  assert (Hsig : signals_not_ready ops = true) by reflexivity.
  pose proof (@holder_get_contract t h ops Hnp Hsig)
    as (_ & Hready & _ & _ & _ & Hrun & _).
  split; [exact Hnp|]. split; [exact Hsig|].
  split; [exact (Hready eq_refl) | exact Hrun].
Defined.

(** ** Typed pipe operator *)

Lemma connect_same (t : FrameType) :
  connect t t = Some (fun produced h => pipe produced h).
Proof.
  unfold connect. destruct (FrameType_eq_dec t t) as [e | n]; [|congruence].
  rewrite (UIP_dec FrameType_eq_dec e eq_refl). reflexivity.
Qed.

Lemma accepted_iff (a b : FrameType) : accepted a b = true <-> a = b.
Proof.
  unfold accepted, connect.
  destruct (FrameType_eq_dec a b); split; intro; congruence.
Qed.

(** C3. Building a connection looks at the two (format, width, height)
    triples only: it is rejected when they differ and accepted when they
    are identical; a pair that swaps width and height is accepted exactly
    when the two are equal; the operator of an accepted connection hands the
    consumer the very frame the producer gave; every connection of the
    capture example is accepted. *)
Theorem connect_static_check (produces consumes : FrameType) :
  (produces <> consumes <-> connect produces consumes = None) /\
  (produces = consumes <-> exists op, connect produces consumes = Some op) /\
  (accepted produces consumes = true <-> produces = consumes) /\
  (accepted (ty (format produces) (width produces) (height produces))
            (ty (format produces) (height produces) (width produces)) = true
   <-> width produces = height produces) /\
  (forall (f : Frame produces) (h : FrameHolder produces),
      exists op, connect produces produces = Some op /\
                 op (Returns f) h = Returns (push f h) /\
                 get (push f h) = Returns f) /\
  forallb (fun pc => stage_connect_ok (fst pc) (snd pc)) main_connections
  = true.
Proof.
  split; [|split; [|split; [|split; [|split]]]].
  - unfold connect. destruct (FrameType_eq_dec produces consumes);
      split; intro; congruence.
  - unfold connect. destruct (FrameType_eq_dec produces consumes); split.
    + intros _. eexists; reflexivity.
    + intros _. assumption.
    + congruence.
    + intros [op Hop]. discriminate Hop.
  - apply accepted_iff.
  - rewrite accepted_iff. unfold ty. split.
    + intro H. injection H as H1 H2. exact H1.
    + intro H. rewrite H. reflexivity.
  - intros f h. eexists. split; [apply connect_same|]. split; reflexivity.
  - vm_compute. reflexivity.
Qed.

(** ** Ring of frames *)

Import Ring.

Lemma push_all_snoc {t} (fs : list (Frame t)) (f : Frame t) (r : RingHolder t) :
  push_all (fs ++ [f]) r = ring_push f (push_all fs r).
Proof. unfold push_all. rewrite fold_left_app. reflexivity. Qed.

Lemma tl_skipn {A} (k : nat) (l : list A) : tl (skipn k l) = skipn (S k) l.
Proof.
  revert l; induction k as [|k IH]; intros [|a l]; try reflexivity.
  simpl skipn at 1. rewrite IH. destruct l; reflexivity.
Qed.

(** After any unread pushes into an empty ring of [N >= 1] slots, the ring
    holds the last [N] frames pushed, in push order, and every push past the
    [N]-th was counted as an overflow. *)
Lemma ring_after_pushes {t} (N : nat) (fs : list (Frame t)) :
  0 < N ->
  let r := push_all fs {| capacity := N; ring := []; overflows := 0 |} in
  capacity r = N /\
  ring r = skipn (length fs - N) fs /\
  overflows r = length fs - N.
Proof.
  intro HN. induction fs as [|f fs IH] using rev_ind.
  - simpl. repeat split; reflexivity.
  - cbv zeta in *. rewrite push_all_snoc.
    destruct IH as (Hc & Hr & Ho).
    set (r := push_all fs _) in *.
    assert (Hlen : length (ring r) = length fs - (length fs - N)).
    { rewrite Hr, length_skipn. reflexivity. }
    unfold ring_push. rewrite Hc, length_app. simpl length.
    destruct (length (ring r) <? N) eqn:E; simpl.
    + apply Nat.ltb_lt in E.
      assert (length fs < N) by lia.
      replace (length fs + 1 - N) with 0 by lia.
      replace (length fs - N) with 0 in * by lia.
      simpl in *. rewrite Hr. repeat split; auto.
    + apply Nat.ltb_ge in E.
      assert (N <= length fs) by lia.
      replace (length fs + 1 - N) with (S (length fs - N)) by lia.
      repeat split; auto; try lia.
      rewrite Hr, skipn_app.
      replace (S (length fs - N) - length fs) with 0 by lia. simpl skipn at 2.
      f_equal. apply tl_skipn.
Qed.

Example ring_of_three_after_five :
  let t := ty H264 640 480 in
  let r := push_all (map (numbered t) (seq 0 5)) (new_ring t (Some 3%Z)) in
  ring r = map (numbered t) [2; 3; 4] /\ overflows r = 2.
Proof. split; reflexivity. Qed.

(** C6. The capacity of a ring is the one it was built with, 100 by
    default; a ring of capacity 100 that receives 150 pushes and no read has
    counted exactly 50 overflows and holds exactly the last 100 frames
    pushed, in push order. *)
Theorem ring_100_after_150_pushes {t : FrameType} (fs : list (Frame t)) :
  length fs = 150 ->
  capacity (new_ring t None) = 100 /\
  capacity (new_ring t (Some 100%Z)) = 100 /\
  (forall N : nat, Z.of_nat N < 2 ^ 32 ->
                   capacity (new_ring t (Some (Z.of_nat N))) = N)%Z /\
  overflows (push_all fs (new_ring t (Some 100%Z))) = 50 /\
  ring (push_all fs (new_ring t (Some 100%Z))) = skipn 50 fs /\
  length (ring (push_all fs (new_ring t (Some 100%Z)))) = 100 /\
  overflows (push_all fs (new_ring t None)) = 50 /\
  ring (push_all fs (new_ring t None)) = skipn 50 fs.
Proof.
  intro Hlen.
  assert (Hdef : new_ring t None
                 = {| capacity := 100; ring := []; overflows := 0 |})
    by reflexivity.
  assert (Hcap : new_ring t (Some 100%Z)
                 = {| capacity := 100; ring := []; overflows := 0 |})
    by reflexivity.
  destruct (@ring_after_pushes t 100 fs ltac:(lia)) as (_ & Hr & Ho).
  rewrite Hlen in Hr, Ho. change (150 - 100) with 50 in Hr, Ho.
  rewrite Hdef, Hcap.
  repeat split; auto.
  - intros N HN. unfold new_ring, to_unsigned_int, UINT_BITS. simpl capacity.
    rewrite Z.mod_small by lia. apply Nat2Z.id.
  - rewrite Hr, length_skipn. lia.
Qed.

Lemma ring_100_after_150_pushes_witness :
  let t := ty H264 640 480 in
  let fs := map (numbered t) (seq 0 150) in
  length fs = 150 /\
  overflows (push_all fs (new_ring t None)) = 50 /\
  ring (push_all fs (new_ring t None)) = map (numbered t) (seq 50 100).
Proof.
  intros t fs.
  assert (Hlen : length fs = 150) by reflexivity.
  pose proof (@ring_100_after_150_pushes t fs Hlen)
    as (_ & _ & _ & _ & _ & _ & Ho & Hr).
  split; [exact Hlen|]. split; [exact Ho|].
  rewrite Hr. reflexivity.
Defined.

(** ** Capture device and driving loop *)

Import Capture.

Section LoopFacts.

Variables tIn tOut : FrameType.
Variable draw : Frame tIn -> ostream -> (outcome unit * ostream) * Frame tIn.
Variable convert_encode : Frame tIn -> M (Frame tOut).
Variable mux : Frame tOut -> M unit.
Variable stream : Frame tOut -> M unit.

Local Abbreviation iteration := (iteration tIn tOut draw convert_encode mux stream).
Local Abbreviation drive := (drive tIn tOut draw convert_encode mux stream).
Local Abbreviation LoopState := (LoopState tIn tOut).

Lemma device_step_disconnected (ev : DeviceEvent tIn) :
  device_step DEV_DISCONNECTED ev = DEV_DISCONNECTED.
Proof. reflexivity. Qed.

Lemma grab_disconnected (ev : DeviceEvent tIn) :
  grab DEV_DISCONNECTED ev = NO_DATA_signal.
Proof. reflexivity. Qed.

(** An iteration that finds the device disconnected ends normally, prints
    nothing, and leaves the first holder in the state NO_DATA. *)
Lemma iteration_disconnected (ev : DeviceEvent tIn) (s : LoopState)
      (cerr : ostream) :
  device_step (dev _ _ s) ev = DEV_DISCONNECTED ->
  exists s',
    iteration ev s cerr = (Returns (s', NO_DATA_signal), cerr) /\
    dev _ _ s' = DEV_DISCONNECTED /\
    status (vFh1 _ _ s') = MEDIA_NO_DATA.
Proof.
  intro Hd. unfold iteration. rewrite Hd, grab_disconnected.
  eexists. split; [reflexivity|]. split; reflexivity.
Qed.

Lemma drive_cons (ev : DeviceEvent tIn) (evs : list (DeviceEvent tIn))
      (s s1 s2 : LoopState) (o : outcome (Frame tIn))
      (os : list (outcome (Frame tIn))) (c c1 c2 : ostream) :
  iteration ev s c = (Returns (s1, o), c1) ->
  drive evs s1 c1 = (Returns (s2, os), c2) ->
  drive (ev :: evs) s c = (Returns (s2, o :: os), c2).
Proof.
  intros Hi Hr. simpl. unfold bind at 1. rewrite Hi. simpl fst.
  unfold bind at 1. rewrite Hr. reflexivity.
Qed.

(** Once the device is disconnected the loop goes through any events. *)
Lemma drive_disconnected (evs : list (DeviceEvent tIn)) :
  forall (s : LoopState) (cerr : ostream),
    dev _ _ s = DEV_DISCONNECTED ->
    status (vFh1 _ _ s) = MEDIA_NO_DATA ->
    exists s',
      drive evs s cerr
      = (Returns (s', repeat NO_DATA_signal (length evs)), cerr) /\
      dev _ _ s' = DEV_DISCONNECTED /\
      status (vFh1 _ _ s') = MEDIA_NO_DATA.
Proof.
  induction evs as [|ev evs IH]; intros s cerr Hd Hs.
  - exists s. repeat split; assumption.
  - destruct (iteration_disconnected ev s cerr) as (s1 & Hit & Hd1 & Hs1).
    { rewrite Hd. apply device_step_disconnected. }
    destruct (IH s1 cerr Hd1 Hs1) as (s2 & Hrun & Hd2 & Hs2).
    exists s2. split; [|split; assumption].
    exact (drive_cons _ _ _ _ _ _ _ _ _ _ Hit Hrun).
Qed.

(** C5. At any point of a run at which the device can produce, whatever
    the holders contain, the loss of the source takes the device to
    DISCONNECTED; from the iteration that observes it on, every
    vFh1.get() raises the status signal NO_DATA and nothing else, the
    error stream is left untouched, and every iteration of the loop ends
    normally, so that the loop goes through all the events that follow. *)
Theorem disconnect_then_no_data
        (s : LoopState) (evs : list (DeviceEvent tIn)) (cerr : ostream) :
  dev _ _ s = DEV_CAN_GRAB ->
  device_step (dev _ _ s) (@SourceLost tIn) = DEV_DISCONNECTED /\
  exists s',
    drive (SourceLost :: evs) s cerr
    = (Returns (s', repeat NO_DATA_signal (S (length evs))), cerr) /\
    dev _ _ s' = DEV_DISCONNECTED /\
    status (vFh1 _ _ s') = MEDIA_NO_DATA /\
    get (vFh1 _ _ s') = NO_DATA_signal.
Proof.
  intro Hcan.
  assert (Hstep : device_step (dev _ _ s) (@SourceLost tIn) = DEV_DISCONNECTED)
    by (rewrite Hcan; reflexivity).
  split; [exact Hstep|].
  destruct (iteration_disconnected SourceLost s cerr Hstep)
    as (s1 & Hit & Hd1 & Hs1).
  destruct (drive_disconnected evs s1 cerr Hd1 Hs1) as (s2 & Hrun & Hd2 & Hs2).
  exists s2. split; [exact (drive_cons _ _ _ _ _ _ _ _ _ _ Hit Hrun)|].
  split; [exact Hd2|]. split; [exact Hs2|].
  unfold get. rewrite Hs2. reflexivity.
Qed.

End LoopFacts.

(** The state of the example is reached from the initial one. *)
Example example_state_reached :
  example_drive [ConfigureAccepted; StreamingStarted;
                 FrameArrived (frame_of example_tIn [16; 128]%Z)]
                (initial example_tIn example_tOut) []
  = (Returns (example_state,
              [NO_DATA_signal;
               Throws (Ex_MediaException (MediaException_ctor MEDIA_NOT_READY));
               Returns (frame_of example_tIn [16; 128]%Z)]), []).
Proof. reflexivity. Qed.

Lemma disconnect_then_no_data_witness :
  dev _ _ example_state = DEV_CAN_GRAB /\
  exists s',
    example_drive (SourceLost :: example_events) example_state []
    = (Returns (s', repeat NO_DATA_signal 4), []) /\
    dev _ _ s' = DEV_DISCONNECTED.
Proof.
  split; [reflexivity|].
  destruct (disconnect_then_no_data
              example_tIn example_tOut example_draw example_convert_encode
              example_sink example_sink
              example_state example_events [] eq_refl)
    as (_ & s' & Hrun & Hd & _).
  exists s'. split; [exact Hrun | exact Hd].
Defined.

(* ================================================================= *)
(** * Further properties *)

(** ** [split]: from tokens to text and back *)

Section SplitMore.

Variable sep : ascii.

Abbreviation sep_free := (fun t : std_string => ~ In sep t).

Lemma app_sep_inj (a a' b b' : std_string) :
  ~ In sep a -> ~ In sep a' ->
  a ++ sep :: b = a' ++ sep :: b' -> a = a' /\ b = b'.
Proof.
  revert a'; induction a as [|c a IH]; intros [|c' a'] Ha Ha' E; simpl in *.
  - injection E as <-. split; reflexivity.
  - injection E as <- _. tauto.
  - injection E as -> _. tauto.
  - injection E as <- E.
    assert (a = a' /\ b = b') as [<- <-] by (apply IH; tauto).
    split; reflexivity.
Qed.

Lemma sep_free_not_app (a a' b' : std_string) :
  ~ In sep a -> a <> a' ++ sep :: b'.
Proof.
  intros Ha E. apply Ha. rewrite E. apply in_or_app. right. left. reflexivity.
Qed.

Lemma join_inj (t1 : list std_string) :
  forall t2,
    t1 <> [] -> t2 <> [] ->
    Forall sep_free t1 -> Forall sep_free t2 ->
    join sep t1 = join sep t2 -> t1 = t2.
Proof.
  induction t1 as [|a t1 IH]; intros [|a' t2] H1 H2 F1 F2 E; try congruence.
  inversion F1 as [|? ? Ha F1']; inversion F2 as [|? ? Ha' F2']; subst.
  destruct t1 as [|b t1]; destruct t2 as [|b' t2].
  - simpl in E. congruence.
  - rewrite (join_cons sep a' (b' :: t2)) in E by discriminate.
    exfalso. exact (sep_free_not_app _ _ _ Ha E).
  - rewrite (join_cons sep a (b :: t1)) in E by discriminate.
    exfalso. exact (sep_free_not_app _ _ _ Ha' (eq_sym E)).
  - rewrite (join_cons sep a (b :: t1)), (join_cons sep a' (b' :: t2)) in E
      by discriminate.
    destruct (app_sep_inj _ _ _ _ Ha Ha' E) as [<- E'].
    f_equal. apply IH; try discriminate; assumption.
Qed.

Lemma join_app (t1 t2 : list std_string) :
  t1 <> [] -> t2 <> [] ->
  join sep (t1 ++ t2) = join sep t1 ++ sep :: join sep t2.
Proof.
  induction t1 as [|a t1 IH]; intros H1 H2; [congruence|].
  destruct t1 as [|b t1].
  - simpl app. rewrite (join_cons sep a t2) by assumption. reflexivity.
  - change ((a :: b :: t1) ++ t2) with (a :: (b :: t1) ++ t2).
    rewrite (join_cons sep a ((b :: t1) ++ t2)) by discriminate.
    rewrite IH by (discriminate || assumption).
    rewrite (join_cons sep a (b :: t1)) by discriminate.
    rewrite <- app_assoc. reflexivity.
Qed.

(** What [split] returns is the one list of tokens, non-empty and free of
    separators, that joins to the text. *)
Lemma split_characterization (text : std_string) (tokens : list std_string) :
  split text sep = Some (Returns tokens)
  <-> tokens <> [] /\ Forall sep_free tokens /\ join sep tokens = text.
Proof.
  destruct (split_loop_from sep (S (length text)) text 0 [])
    as (toks & Hrun & Hjoin & Hall & Hcount); [lia | lia |].
  simpl skipn in *. simpl app in Hrun.
  assert (Hne : toks <> []) by (destruct toks; [discriminate | congruence]).
  unfold split. rewrite Hrun. split.
  - intro E. injection E as <-. auto.
  - intros (Hne' & Hall' & Hjoin'). do 2 f_equal.
    apply join_inj; auto. congruence.
Qed.

Lemma concat_sep_free (tokens : list std_string) :
  Forall sep_free tokens ->
  concat tokens
  = filter (fun c => negb (Ascii.eqb c sep)) (join sep tokens).
Proof.
  assert (Hfree : forall t, sep_free t ->
             filter (fun c => negb (Ascii.eqb c sep)) t = t).
  { induction t as [|c t IH]; intro Ht; [reflexivity|]. simpl.
    destruct (Ascii.eqb c sep) eqn:E.
    - apply Ascii.eqb_eq in E. subst c. exfalso. apply Ht. left. reflexivity.
    - simpl. rewrite IH; [reflexivity|]. intro Hin. apply Ht. right. exact Hin. }
  induction tokens as [|t ts IH]; intro Hall; [reflexivity|].
  inversion Hall as [|? ? Ht Hts]; subst.
  destruct ts as [|u ts].
  - simpl. rewrite app_nil_r, Hfree by assumption. reflexivity.
  - rewrite (join_cons sep t (u :: ts)) by discriminate.
    change (concat (t :: u :: ts)) with (t ++ concat (u :: ts)).
    rewrite filter_app, Hfree by assumption. cbn [filter].
    rewrite Ascii.eqb_refl. cbn [negb].
    rewrite <- IH by assumption. reflexivity.
Qed.

End SplitMore.

(** X1. Splitting what was joined gives the tokens back: for a non-empty
    list of tokens none of which contains the separator, [split] of their
    join returns exactly that list. *)
Theorem split_join (sep : ascii) (tokens : list std_string) :
  tokens <> [] ->
  Forall (fun t => ~ In sep t) tokens ->
  split (join sep tokens) sep = Some (Returns tokens).
Proof.
  intros Hne Hall. apply split_characterization. auto.
Qed.

Lemma split_join_witness :
  let tokens := [lit "startRecording"; lit "/tmp/out.ts"; lit ""] in
  tokens <> [] /\
  Forall (fun t => ~ In "="%char t) tokens /\
  split (join "="%char tokens) "="%char = Some (Returns tokens).
Proof.
  intro tokens.
  assert (Hne : tokens <> []) by discriminate.
  assert (Hall : Forall (fun t => ~ In "="%char t) tokens).
  { repeat constructor; simpl; intuition discriminate. }
  split; [exact Hne|]. split; [exact Hall|].
  exact (split_join "="%char tokens Hne Hall).
Defined.

(** X2. The tokens of two texts put together with one separator between
    them are the tokens of the first followed by the tokens of the
    second. *)
Theorem split_app (sep : ascii) (a b : std_string) :
  exists ta tb,
    split a sep = Some (Returns ta) /\
    split b sep = Some (Returns tb) /\
    split (a ++ sep :: b) sep = Some (Returns (ta ++ tb)).
Proof.
  destruct (split_loop_from sep (S (length a)) a 0 [])
    as (ta & Ha & Hja & Hfa & Hca); [lia | lia |].
  destruct (split_loop_from sep (S (length b)) b 0 [])
    as (tb & Hb & Hjb & Hfb & Hcb); [lia | lia |].
  simpl skipn in *. simpl app in Ha, Hb.
  assert (Hna : ta <> []) by (destruct ta; [discriminate | congruence]).
  assert (Hnb : tb <> []) by (destruct tb; [discriminate | congruence]).
  exists ta, tb. split; [exact Ha|]. split; [exact Hb|].
  apply split_characterization. split; [|split].
  - destruct ta; [congruence | discriminate].
  - apply Forall_app. split; assumption.
  - rewrite join_app, Hja, Hjb by assumption. reflexivity.
Qed.

(** X3. Separators at the ends are not swallowed: a text that begins with
    the separator has an empty first token followed by the tokens of the
    rest, and a text that ends with it has the tokens of what precedes
    followed by an empty last token. *)
Theorem split_separator_at_ends (sep : ascii) (text : std_string) :
  exists tokens,
    split text sep = Some (Returns tokens) /\
    split (sep :: text) sep = Some (Returns ([] :: tokens)) /\
    split (text ++ [sep]) sep = Some (Returns (tokens ++ [[]])).
Proof.
  destruct (split_loop_from sep (S (length text)) text 0 [])
    as (toks & Hrun & Hjoin & Hall & Hcount); [lia | lia |].
  simpl skipn in *. simpl app in Hrun.
  assert (Hne : toks <> []) by (destruct toks; [discriminate | congruence]).
  exists toks. split; [exact Hrun|]. split.
  - apply split_characterization. split; [discriminate|]. split.
    + constructor; [simpl; tauto | exact Hall].
    + transitivity ([] ++ sep :: join sep toks);
        [apply join_cons; exact Hne | rewrite Hjoin; reflexivity].
  - apply split_characterization. split; [|split].
    + destruct toks; [congruence | discriminate].
    + apply Forall_app. split; [exact Hall|].
      constructor; [simpl; tauto | constructor].
    + rewrite join_app, Hjoin by (assumption || discriminate). reflexivity.
Qed.

(** X4. The tokens put end to end are the text with its separators taken
    out: [split] loses no other character and changes no order. *)
Theorem split_concat (sep : ascii) (text : std_string) :
  exists tokens,
    split text sep = Some (Returns tokens) /\
    concat tokens = filter (fun c => negb (Ascii.eqb c sep)) text.
Proof.
  destruct (split_loop_from sep (S (length text)) text 0 [])
    as (toks & Hrun & Hjoin & Hall & Hcount); [lia | lia |].
  simpl skipn in *. simpl app in Hrun.
  exists toks. split; [exact Hrun|].
  rewrite <- Hjoin. apply concat_sep_free. exact Hall.
Qed.

(** ** The unrecoverable error and the [catch] clause of the example *)

(** X5. Whatever is written after a call of
    printAndThrowUnrecoverableError is not run, and a [catch] clause for
    MediaException around it does not stop the error: the outcome is the
    std::runtime_error, and the error stream holds what it held, then the
    message, then a newline. *)
Theorem unrecoverable_error_escapes
        {A : Type} (func error : std_string) (rest : unit -> M A)
        (handler : MediaException -> M A) (cerr : ostream) :
  bind (printAndThrowUnrecoverableError func error) rest cerr
  = (Throws (Ex_runtime_error func), cerr ++ error ++ newline) /\
  try_catch_MediaException
    (bind (printAndThrowUnrecoverableError func error) rest) handler cerr
  = (Throws (Ex_runtime_error func), cerr ++ error ++ newline).
Proof.
  unfold try_catch_MediaException, bind.
  rewrite printAndThrowUnrecoverableError_run, <- app_assoc.
  split; reflexivity.
Qed.

(** ** [ignoreSigpipe] *)

Import Sigpipe.

Section SigpipeFacts.

Variable OSState : Type.
Variable sigemptyset : OSState -> Z * OSState.
Variable sigaction : OSState -> Z * OSState.
Variable pretty : std_string.

Local Abbreviation run := (ignoreSigpipe OSState sigemptyset sigaction pretty).

(** X6. ignoreSigpipe returns exactly when neither call reports a negative
    value; it then has printed nothing and leaves the process in the state
    sigaction produced from the one sigemptyset left. *)
Theorem ignoreSigpipe_returns (os : OSState) (cerr : ostream) :
  (fst (fst (run os cerr)) = Returns tt
   <-> (0 <= fst (sigemptyset os)
        /\ 0 <= fst (sigaction (snd (sigemptyset os))))%Z) /\
  (fst (fst (run os cerr)) = Returns tt ->
   snd (fst (run os cerr)) = cerr /\
   snd (run os cerr) = snd (sigaction (snd (sigemptyset os)))).
Proof.
  unfold ignoreSigpipe.
  destruct (sigemptyset os) as [rc1 os1]. simpl fst. simpl snd.
  destruct (rc1 <? 0)%Z eqn:E1.
  - apply Z.ltb_lt in E1.
    rewrite printAndThrowUnrecoverableError_run. simpl.
    split; [split|]; intro H; [discriminate H | lia | discriminate H].
  - apply Z.ltb_ge in E1.
    destruct (sigaction os1) as [rc2 os2]. simpl fst. simpl snd.
    destruct (rc2 <? 0)%Z eqn:E2.
    + apply Z.ltb_lt in E2.
      rewrite printAndThrowUnrecoverableError_run. simpl.
      split; [split|]; intro H; [discriminate H | lia | discriminate H].
    + apply Z.ltb_ge in E2. simpl.
      split; [split|]; auto.
Qed.

(** X7. When one of the two calls reports a negative value, ignoreSigpipe
    throws a std::runtime_error after printing its one-line message; and
    when it is sigemptyset that failed, sigaction is not called: the process
    stays in the state sigemptyset left. *)
Theorem ignoreSigpipe_fails (os : OSState) (cerr : ostream) :
  (fst (sigemptyset os) < 0
   \/ fst (sigaction (snd (sigemptyset os))) < 0)%Z ->
  fst (run os cerr)
  = (Throws (Ex_runtime_error pretty),
     cerr ++ could_not_handle_SIGPIPE ++ newline) /\
  ((fst (sigemptyset os) < 0)%Z ->
   snd (run os cerr) = snd (sigemptyset os)).
Proof.
  unfold ignoreSigpipe.
  destruct (sigemptyset os) as [rc1 os1]. simpl fst. simpl snd.
  destruct (rc1 <? 0)%Z eqn:E1.
  - intros _. rewrite printAndThrowUnrecoverableError_run, <- app_assoc.
    split; [reflexivity | intros _; reflexivity].
  - apply Z.ltb_ge in E1.
    destruct (sigaction os1) as [rc2 os2]. simpl fst. simpl snd.
    intros [H | H]; [lia|].
    apply Z.ltb_lt in H. rewrite H.
    rewrite printAndThrowUnrecoverableError_run, <- app_assoc.
    split; [reflexivity | intro; lia].
Qed.

End SigpipeFacts.

Lemma ignoreSigpipe_fails_witness :
  let sigemptyset := fun os : nat => ((-1)%Z, S os) in
  let sigaction := fun os : nat => (0%Z, 10 + os) in
  (fst (sigemptyset 0%nat) < 0
   \/ fst (sigaction (snd (sigemptyset 0%nat))) < 0)%Z /\
  snd (ignoreSigpipe nat sigemptyset sigaction (lit "ignoreSigpipe") 0 []) = 1.
Proof.
  intros sigemptyset sigaction.
  assert (H : (fst (sigemptyset 0%nat) < 0
               \/ fst (sigaction (snd (sigemptyset 0%nat))) < 0)%Z)
    by (left; reflexivity).
  split; [exact H|].
  destruct (ignoreSigpipe_fails nat sigemptyset sigaction
                                (lit "ignoreSigpipe") 0 [] H) as [_ Hos].
  exact (Hos eq_refl).
Defined.

(** ** The commands of the capture example *)

Import Main.

Lemma map_find_In (cmds : commands) (key value : std_string) :
  map_find cmds key = Some value -> In (key, value) cmds.
Proof.
  induction cmds as [|[k v] rest IH]; simpl; [discriminate|].
  destruct (string_eq_dec k key) as [-> | Hne].
  - intro E. injection E as ->. left. reflexivity.
  - intro E. right. exact (IH E).
Qed.

Lemma In_has_key (cmds : commands) (key value : std_string) :
  In (key, value) cmds -> has_key cmds key = true.
Proof.
  unfold has_key.
  induction cmds as [|[k v] rest IH]; simpl; [tauto|].
  intros [E | Hin].
  - injection E as -> ->. destruct (string_eq_dec key key); congruence.
  - destruct (string_eq_dec k key); [reflexivity | exact (IH Hin)].
Qed.

Lemma In_map_find (cmds : commands) (key value : std_string) :
  NoDup (map fst cmds) -> In (key, value) cmds ->
  map_find cmds key = Some value.
Proof.
  induction cmds as [|[k v] rest IH]; simpl; [tauto|].
  intros Hnd [E | Hin]; inversion Hnd as [|? ? Hk Hrest]; subst.
  - injection E as -> ->. destruct (string_eq_dec key key); congruence.
  - destruct (string_eq_dec k key) as [-> | Hne]; [|exact (IH Hrest Hin)].
    exfalso. apply Hk. apply (in_map fst) in Hin. exact Hin.
Qed.

(** X8. What one pass over the commands does, for every set of commands:
    the loop is left exactly when a "stop" key is there, and then nothing
    else is done; the muxer is started exactly when there is no "stop" and
    a "startRecording" key, with the file bound to it; it is stopped exactly
    when there is "stopRecording" and neither of the other two; the commands
    are cleared exactly when there were some and no "stop"; and the muxer is
    never asked more than one thing. *)
Theorem handle_commands_table (cmds : commands) :
  (fst (handle_commands cmds) = Break <-> has_key cmds stop = true) /\
  (has_key cmds stop = true -> snd (handle_commands cmds) = []) /\
  (forall file,
      In (StartMuxing file) (snd (handle_commands cmds))
      <-> has_key cmds stop = false /\
          map_find cmds startRecording = Some file) /\
  (In StopMuxing (snd (handle_commands cmds))
   <-> has_key cmds stop = false /\ has_key cmds startRecording = false /\
       has_key cmds stopRecording = true) /\
  (In ClearCommands (snd (handle_commands cmds))
   <-> cmds <> [] /\ has_key cmds stop = false) /\
  length (filter is_muxer_action (snd (handle_commands cmds))) <= 1.
Proof.
  unfold handle_commands, has_key.
  destruct cmds as [|c rest] eqn:Ecmds.
  - simpl. repeat split; try discriminate; try tauto; try lia;
      intros; intuition discriminate.
  - rewrite <- Ecmds.
    replace (negb (length cmds =? 0)) with true
      by (rewrite Ecmds; reflexivity).
    assert (Hne : cmds <> []) by (rewrite Ecmds; discriminate).
    destruct (map_find cmds stop) as [v0|];
      [|destruct (map_find cmds startRecording) as [v1|];
        [|destruct (map_find cmds stopRecording) as [v2|]]];
      simpl; repeat split; try discriminate; try tauto; try lia;
        intros; try intuition (discriminate || congruence).
Qed.

(** X9. A "stop" command ends the loop whatever value comes with it and
    whatever else was received; the other commands are neither executed nor
    cleared. *)
Theorem stop_command_wins (cmds : commands) (value : std_string) :
  In (stop, value) cmds ->
  handle_commands cmds = (Break, []).
Proof.
  intro Hin. pose proof (In_has_key _ _ _ Hin) as Hk.
  unfold has_key in Hk. unfold handle_commands.
  destruct cmds as [|c rest]; [destruct Hin|].
  change (negb (length (c :: rest) =? 0)) with true. cbv iota.
  destruct (map_find (c :: rest) stop); [reflexivity | discriminate Hk].
Qed.

Lemma stop_command_wins_witness :
  let cmds := [(startRecording, lit "/tmp/a.ts"); (stop, lit "no")] in
  In (stop, lit "no") cmds /\ handle_commands cmds = (Break, []).
Proof.
  intro cmds.
  assert (Hin : In (stop, lit "no") cmds) by (right; left; reflexivity).
  split; [exact Hin | exact (stop_command_wins cmds (lit "no") Hin)].
Defined.

(** X10. When "startRecording" is received without "stop", the muxer is
    started on the file that came with it and the commands are cleared, and
    that is all: a "stopRecording" received along with it is dropped. *)
Theorem start_recording_hides_stop_recording
        (cmds : commands) (file : std_string) :
  NoDup (map fst cmds) ->
  has_key cmds stop = false ->
  In (startRecording, file) cmds ->
  handle_commands cmds = (Continue, [StartMuxing file; ClearCommands]) /\
  ~ In StopMuxing (snd (handle_commands cmds)).
Proof.
  intros Hnd Hstop Hin.
  pose proof (In_map_find _ _ _ Hnd Hin) as Hfind.
  unfold has_key in Hstop. unfold handle_commands.
  destruct cmds as [|c rest]; [destruct Hin|].
  change (negb (length (c :: rest) =? 0)) with true. cbv iota.
  destruct (map_find (c :: rest) stop); [discriminate Hstop|].
  rewrite Hfind. split; [reflexivity|].
  simpl. intuition discriminate.
Qed.

Lemma start_recording_hides_stop_recording_witness :
  let cmds := [(stopRecording, lit "yes");
               (startRecording, lit "/tmp/a.ts")] in
  NoDup (map fst cmds) /\
  has_key cmds stop = false /\
  In (startRecording, lit "/tmp/a.ts") cmds /\
  handle_commands cmds
  = (Continue, [StartMuxing (lit "/tmp/a.ts"); ClearCommands]).
Proof.
  intro cmds.
  assert (Hnd : NoDup (map fst cmds)).
  { repeat constructor; simpl; intuition discriminate. }
  assert (Hstop : has_key cmds stop = false) by reflexivity.
  assert (Hin : In (startRecording, lit "/tmp/a.ts") cmds)
    by (right; left; reflexivity).
  split; [exact Hnd|]. split; [exact Hstop|]. split; [exact Hin|].
  exact (proj1 (start_recording_hides_stop_recording
                  cmds (lit "/tmp/a.ts") Hnd Hstop Hin)).
Defined.

(** ** The green rectangle *)

Local Open Scope Z_scope.

(** Linear arithmetic with the divisions by 4 of the source. *)
Ltac quot_lia := Z.to_euclidean_division_equations; lia.

Lemma interval_In (lo hi i : Z) : In i (interval lo hi) <-> lo <= i < hi.
Proof.
  unfold interval. rewrite in_map_iff. split.
  - intros (k & <- & Hk). apply in_seq in Hk. lia.
  - intro H. exists (Z.to_nat (i - lo)). split; [lia|].
    apply in_seq. lia.
Qed.


(** The calls are those on the two rows, between the two columns, and
    those on the two columns, between the two rows, each time with the first
    border in and the second one out. *)
Lemma rectangle_calls_In (W H x y : Z) :
  In (x, y) (rectangle_calls W H)
  <-> (W ÷ 4 <= x < W - W ÷ 4 /\ (y = H ÷ 4 \/ y = H - H ÷ 4))
      \/ (H ÷ 4 <= y < H - H ÷ 4 /\ (x = W ÷ 4 \/ x = W - W ÷ 4)).
Proof.
  unfold rectangle_calls. rewrite in_app_iff, !in_flat_map. split.
  - intros [(i & Hi & Hc) | (i & Hi & Hc)]; apply interval_In in Hi;
      simpl in Hc; destruct Hc as [E | [E | []]]; injection E as <- <-;
      [left | left | right | right]; tauto.
  - intros [(Hx & Hy) | (Hy & Hx)].
    + left. exists x. split; [apply interval_In; exact Hx|].
      simpl. destruct Hy as [-> | ->]; tauto.
    + right. exists y. split; [apply interval_In; exact Hy|].
      simpl. destruct Hx as [-> | ->]; tauto.
Qed.


(** What a run of calls does depends only on the coordinates as they are
    received. *)
Lemma set_pixels_received
      {Frame : Z -> Z -> Type} {F : FrameFormat Frame} {W H : Z}
      (pix : Pixel) (c1 : list (Z * Z)) :
  forall (c2 : list (Z * Z)) (frame : Frame W H) (cerr : ostream),
    map (fun c => (to_uint16_t (fst c), to_uint16_t (snd c))) c1
    = map (fun c => (to_uint16_t (fst c), to_uint16_t (snd c))) c2 ->
    set_pixels pix c1 frame cerr = set_pixels pix c2 frame cerr.
Proof.
  induction c1 as [|[x1 y1] c1 IH]; intros [|[x2 y2] c2] frame cerr E;
    try discriminate E; [reflexivity|].
  simpl in E. injection E as Ex Ey E.
  simpl. unfold bind. rewrite Ex, Ey.
  destruct (setPixelAt frame pix (to_uint16_t x2) (to_uint16_t y2) cerr)
    as [[frame' | e] cerr']; [apply IH; exact E | reflexivity].
Qed.

(** X11. For a frame at least 4 pixels wide and high, and less than 65536,
    every call of setPixelAt in the try block is inside the frame, and the
    conversion of its arguments to uint16_t changes nothing. *)
Theorem rectangle_within_frame (W H : Z) :
  4 <= W < 65536 -> 4 <= H < 65536 ->
  Forall (fun c => to_uint16_t (fst c) = fst c /\
                   to_uint16_t (snd c) = snd c /\
                   0 <= fst c < W /\ 0 <= snd c < H)
         (rectangle_calls W H).
Proof.
  intros HW HH. apply Forall_forall. intros [x y] Hin.
  apply rectangle_calls_In in Hin.
  simpl fst. simpl snd. unfold to_uint16_t.
  assert (0 <= x < W /\ 0 <= y < H) as [Hx Hy] by quot_lia.
  rewrite !Z.mod_small by lia. tauto.
Qed.

Lemma rectangle_within_frame_witness :
  (4 <= WIDTH < 65536 /\ 4 <= HEIGHT < 65536) /\
  Forall (fun c => to_uint16_t (fst c) = fst c /\
                   to_uint16_t (snd c) = snd c /\
                   0 <= fst c < WIDTH /\ 0 <= snd c < HEIGHT)
         (rectangle_calls WIDTH HEIGHT).
Proof.
  assert (HW : 4 <= WIDTH < 65536) by (unfold WIDTH; lia).
  assert (HH : 4 <= HEIGHT < 65536) by (unfold HEIGHT; lia).
  split; [split; assumption|].
  exact (rectangle_within_frame WIDTH HEIGHT HW HH).
Defined.






Lemma rectangle_calls_first (W H : Z) :
  0 < W ->
  exists rest, rectangle_calls W H = (W ÷ 4, H ÷ 4) :: rest.
Proof.
  intro HW. unfold rectangle_calls, interval.
  assert (E : exists n, Z.to_nat (W - W ÷ 4 - W ÷ 4) = S n).
  { exists (Nat.pred (Z.to_nat (W - W ÷ 4 - W ÷ 4))).
    assert (0 < W - W ÷ 4 - W ÷ 4) by quot_lia. lia. }
  destruct E as [n ->]. simpl. rewrite Z.add_0_r.
  eexists. reflexivity.
Qed.

(** X14. On a holder of NV_12_PLANAR frames the try block of the example
    stops at its first setPixelAt: whatever the frame (of positive width)
    and the pixel, it prints the diagnostic line once and throws the
    std::runtime_error, which the catch clause lets through. *)
Theorem try_draw_NV12_fails
        (P : Type) (pp ps : std_string) (W H : Z)
        (f : VideoFrame P W H) (pix : Pixel) (cerr : ostream) :
  0 < W ->
  @try_draw _ (NV_12_PLANAR_format P pp ps) W H (ret f) pix cerr
  = (Throws (Ex_runtime_error ps), cerr ++ NOT_IMPLEMENTED ++ newline).
Proof.
  intro HW. destruct (rectangle_calls_first W H HW) as [rest E].
  unfold try_draw, draw_body, try_catch_MediaException, bind, ret.
  rewrite E. simpl set_pixels. unfold bind.
  rewrite NV12_setPixelAt_run, <- app_assoc. reflexivity.
Qed.

Lemma try_draw_NV12_fails_witness :
  0 < 640 /\
  @try_draw _ (NV_12_PLANAR_format unit (lit "pixelAt") (lit "setPixelAt"))
            640 480 (ret frame_640_480) green []
  = (Throws (Ex_runtime_error (lit "setPixelAt")),
     NOT_IMPLEMENTED ++ newline).
Proof.
  assert (HW : 0 < 640) by reflexivity.
  split; [exact HW|].
  exact (try_draw_NV12_fails unit (lit "pixelAt") (lit "setPixelAt")
                             640 480 frame_640_480 green [] HW).
Defined.

(** X15. The try block with its catch clause, for any format and any get:
    no MediaException ever leaves it; one thrown by get or by setPixelAt
    ends the block normally, with no frame; any other exception, and a
    normal end, pass as they are; and when get throws, no pixel is set. *)
Theorem try_draw_outcomes
        {Frame : Z -> Z -> Type} {F : FrameFormat Frame} {W H : Z}
        (get : M (Frame W H)) (pix : Pixel) (cerr : ostream) :
  (forall me, fst (try_draw get pix cerr) <> Throws (Ex_MediaException me)) /\
  (forall me, fst (draw_body get pix cerr) = Throws (Ex_MediaException me) ->
              try_draw get pix cerr
              = (Returns None, snd (draw_body get pix cerr))) /\
  (forall e, fst (draw_body get pix cerr) = Throws e ->
             is_MediaException e = false ->
             try_draw get pix cerr = draw_body get pix cerr) /\
  (forall r, fst (draw_body get pix cerr) = Returns r ->
             try_draw get pix cerr = draw_body get pix cerr) /\
  (forall e, fst (get cerr) = Throws e ->
             draw_body get pix cerr = (Throws e, snd (get cerr))).
Proof.
  unfold try_draw, try_catch_MediaException.
  split; [|split; [|split; [|split]]].
  - intros me. destruct (draw_body get pix cerr) as [[r | e] c]; simpl;
      [discriminate|]. destruct e; simpl; discriminate.
  - intros me. destruct (draw_body get pix cerr) as [[r | e] c]; simpl;
      intro E; [discriminate E|]. injection E as ->. reflexivity.
  - intros e. destruct (draw_body get pix cerr) as [[r | e'] c]; simpl;
      intro E; [discriminate E|]. injection E as ->.
      destruct e; simpl; intro; (reflexivity || discriminate).
  - intros r. destruct (draw_body get pix cerr) as [[r' | e] c]; simpl;
      intro E; [reflexivity | discriminate E].
  - intros e. unfold draw_body, bind.
    destruct (get cerr) as [[r | e'] c]; simpl; intro E;
      [discriminate E | congruence].
Qed.
